(** * Convex session tracker: session store and client identity

    A shallow embedding of [sessions.ts] (the four server functions
    [trackSession], [trackUserAction], [getActiveSessions] and
    [cleanupOldSessions]) and of the effect of the [useSessionTracker]
    hook of [client/index.tsx].

    Numbers.  [Date.now()] is an integral number of milliseconds; the
    arguments [minutesActive] and [daysInactive] are JavaScript numbers.
    They are modelled as [Z]: on integral inputs below 2^53 the float64
    arithmetic of the source is exact and agrees with [Z]. *)

From Stdlib Require Import ZArith Lia Sorted.
From stdpp Require Import gmap strings list.

Local Open Scope Z_scope.
Local Open Scope string_scope.
Local Open Scope list_scope.

Set Warnings "-register-all".

(** ** The document store the handlers run against ([ctx.db]) *)

Module Convex.

(** What [v.any()] admits for [metadata]: the store never looks inside. *)
Inductive Value : Type :=
| VNull
| VBoolean (b : bool)
| VNumber (n : Z)
| VString (s : string)
| VArray (items : list Value)
| VObject (fields : list (string * Value)).

(** One entry of [actions] (schema.ts). *)
Record Action := {
  action : string;
  timestamp : Z;
  resourceId : option string;
  metadata : option Value
}.

(** Document ids are opaque to the handlers; the store hands out a fresh
    one at every insert. *)
Definition Id := nat.

(** A row of the [sessions] table (schema.ts), with its system field. *)
Record Doc := {
  _id : Id;
  anonymousId : string;
  createdAt : Z;
  lastActive : Z;
  actions : list Action
}.

(** The argument of [ctx.db.insert('sessions', { ... })]. *)
Record NewSession := {
  new_anonymousId : string;
  new_createdAt : Z;
  new_lastActive : Z;
  new_actions : list Action
}.

(** One field of the object given to [ctx.db.patch]: a shallow merge. *)
Inductive FieldPatch :=
| PatchAnonymousId (v : string)
| PatchCreatedAt (v : Z)
| PatchLastActive (v : Z)
| PatchActions (v : list Action).

(** The table keeps its rows in creation order, which is the order
    [collect()] yields and, among rows of equal [anonymousId], the order
    of the [by_anonymous_id] index. *)
Record Db := {
  sessions : list Doc;
  next_id : Id
}.

Definition empty_db : Db := {| sessions := []; next_id := 0%nat |}.

Inductive Error := MkError (message : string).

Inductive result (A : Type) :=
| Ok (a : A)
| Throw (e : Error).
Arguments Ok {A} a.
Arguments Throw {A} e.

(** A handler body: it reads and writes the store and may throw. *)
Definition M (A : Type) : Type := Db -> result (A * Db).

Definition ret {A} (a : A) : M A := fun db => Ok (a, db).

Definition bind {A B} (m : M A) (k : A -> M B) : M B :=
  fun db =>
    match m db with
    | Ok (a, db') => k a db'
    | Throw e => Throw e
    end.

Definition throw {A} (message : string) : M A :=
  fun _ => Throw (MkError message).

Definition apply_field (p : FieldPatch) (d : Doc) : Doc :=
  match p with
  | PatchAnonymousId v =>
      {| _id := _id d; anonymousId := v; createdAt := createdAt d;
         lastActive := lastActive d; actions := actions d |}
  | PatchCreatedAt v =>
      {| _id := _id d; anonymousId := anonymousId d; createdAt := v;
         lastActive := lastActive d; actions := actions d |}
  | PatchLastActive v =>
      {| _id := _id d; anonymousId := anonymousId d; createdAt := createdAt d;
         lastActive := v; actions := actions d |}
  | PatchActions v =>
      {| _id := _id d; anonymousId := anonymousId d; createdAt := createdAt d;
         lastActive := lastActive d; actions := v |}
  end.

Definition apply_patch (ps : list FieldPatch) (d : Doc) : Doc :=
  fold_left (fun acc p => apply_field p acc) ps d.

Fixpoint patch_rows (i : Id) (ps : list FieldPatch) (rows : list Doc)
  : option (list Doc) :=
  match rows with
  | [] => None
  | d :: rest =>
      if decide (_id d = i) then Some (apply_patch ps d :: rest)
      else match patch_rows i ps rest with
           | Some rest' => Some (d :: rest')
           | None => None
           end
  end.

Fixpoint delete_row (i : Id) (rows : list Doc) : option (list Doc) :=
  match rows with
  | [] => None
  | d :: rest =>
      if decide (_id d = i) then Some rest
      else match delete_row i rest with
           | Some rest' => Some (d :: rest')
           | None => None
           end
  end.

(** [ctx.db.query('sessions').withIndex('by_anonymous_id',
    q => q.eq('anonymousId', a)).first()] *)
Definition first_by_anonymous_id (a : string) : M (option Doc) :=
  fun db => Ok (find (fun d => bool_decide (anonymousId d = a)) (sessions db), db).

(** [ctx.db.query('sessions').filter(p).collect()] *)
Definition filter_collect (p : Doc -> Prop) `{!forall d, Decision (p d)}
  : M (list Doc) :=
  fun db => Ok (filter p (sessions db), db).

(** [ctx.db.insert('sessions', s)]: the new row goes last and the call
    returns its id. *)
Definition db_insert (s : NewSession) : M Id :=
  fun db =>
    let d := {| _id := next_id db;
                anonymousId := new_anonymousId s;
                createdAt := new_createdAt s;
                lastActive := new_lastActive s;
                actions := new_actions s |} in
    Ok (next_id db, {| sessions := sessions db ++ [d]; next_id := S (next_id db) |}).

(** [ctx.db.patch(id, fields)]: throws when no row has that id. *)
Definition db_patch (i : Id) (ps : list FieldPatch) : M unit :=
  fun db =>
    match patch_rows i ps (sessions db) with
    | Some rows => Ok (tt, {| sessions := rows; next_id := next_id db |})
    | None => Throw (MkError "Update on nonexistent document ID")
    end.

(** [ctx.db.delete(id)]: throws when no row has that id. *)
Definition db_delete (i : Id) : M unit :=
  fun db =>
    match delete_row i (sessions db) with
    | Some rows => Ok (tt, {| sessions := rows; next_id := next_id db |})
    | None => Throw (MkError "Delete on nonexistent document ID")
    end.

(** [mutation({ handler })]: the handler runs as one transaction; when it
    throws nothing it wrote is kept. *)
Definition mutation {A} (handler : M A) (db : Db) : result A * Db :=
  match handler db with
  | Ok (a, db') => (Ok a, db')
  | Throw e => (Throw e, db)
  end.

(** [query({ handler })]: read-only, the store is left as it was. *)
Definition query {A} (handler : M A) (db : Db) : result A :=
  match handler db with
  | Ok (a, _) => Ok a
  | Throw e => Throw e
  end.

End Convex.

Import Convex.

Notation "'let!' x ':=' m 'in' k" := (bind m (fun x => k))
  (at level 10, x name, m at level 100, k at level 200, only parsing).
Notation "m ';;!' k" := (bind m (fun _ => k))
  (at level 100, k at level 200, right associativity, only parsing).

(** ** sessions.ts *)

Module Sessions.

Definition trackSession (anon : string) (now : Z) : M Id :=
  (* Look up existing session *)
  let! existing := first_by_anonymous_id anon in
  match existing with
  | Some existing =>
      (* Update last active timestamp *)
      db_patch (_id existing) [PatchLastActive now] ;;!
      ret (_id existing)
  | None =>
      (* Create new session *)
      db_insert {| new_anonymousId := anon;
                   new_createdAt := now;
                   new_lastActive := now;
                   new_actions := [] |}
  end.

Definition trackUserAction (anon action : string)
    (resourceId : option string) (metadata : option Value) (now : Z) : M unit :=
  (* Find the session *)
  let! session := first_by_anonymous_id anon in
  match session with
  | None => throw "Session not found"
  | Some session =>
      (* Track the action *)
      db_patch (_id session)
        [PatchLastActive now;
         PatchActions (actions session ++
                       [{| Convex.action := action;
                           timestamp := now;
                           Convex.resourceId := resourceId;
                           Convex.metadata := metadata |}])]
  end.

(** [q.gt(q.field('lastActive'), cutoff)] *)
Definition getActiveSessions (minutesActive : option Z) (now : Z) : M (list Doc) :=
  let minutesActive := default 15 minutesActive in
  let cutoff := now - (minutesActive * 60 * 1000) in
  filter_collect (fun d => lastActive d > cutoff).

(** The [for ... of] loop of [cleanupSessionsHandler]. *)
Fixpoint delete_each (oldSessions : list Doc) (deletedCount : Z) : M Z :=
  match oldSessions with
  | [] => ret deletedCount
  | session :: rest =>
      db_delete (_id session) ;;!
      delete_each rest (deletedCount + 1)
  end.

(** The returned object is kept as a map from property names to numbers.
    Numbers are integers here: on an integral [daysInactive] and [now] for
    which no step of the source's float arithmetic rounds ([exact_cutoff]
    below) the cutoff is the one the source computes
    ([cutoff_float64_exact]); what is stated about the value of the
    cutoff is stated on those inputs. *)
Definition cleanupSessionsHandler (daysInactive : option Z) (now : Z)
  : M (gmap string Z) :=
  let daysInactive := default 30 daysInactive in
  (* Calculate the cutoff date *)
  let cutoff := now - (daysInactive * 24 * 60 * 60 * 1000) in
  (* Find sessions older than the cutoff date *)
  let! oldSessions := filter_collect (fun d => lastActive d < cutoff) in
  (* Delete each old session *)
  let! deletedCount := delete_each oldSessions 0 in
  ret (<["deletedCount" := deletedCount]> (<["oldestDate" := cutoff]> ∅)).

Definition cleanupOldSessions := cleanupSessionsHandler.

Definition cleanupOldSessions_internal := cleanupSessionsHandler.

(** crons.ts: the daily job's argument. *)
Definition cron_daysInactive : option Z := Some 14.

End Sessions.

Import Sessions.

(** ** client/index.tsx: the effect of [useSessionTracker] *)

Module Client.

(** What the hook sees and changes.  [window = None] stands for
    [typeof window === 'undefined']; otherwise it holds [localStorage]. *)
Record Page := {
  window : option (gmap string string);
  anonymousId_state : option string;      (* useState<string | null>(null) *)
  sent : list string;                     (* trackSession calls, oldest first *)
  interval : option (Z * string)          (* setInterval: period and reported id *)
}.

Definition initial_page (w : option (gmap string string)) : Page :=
  {| window := w; anonymousId_state := None; sent := []; interval := None |}.

(** JavaScript truthiness of a [string | null]. *)
Definition truthy (s : option string) : bool :=
  match s with
  | Some s => negb (String.eqb s EmptyString)
  | None => false
  end.

(** [a || b] on a [string | null] and a string. *)
Definition or_else (a : option string) (b : string) : string :=
  match a with
  | Some s => if truthy a then s else b
  | None => b
  end.

(** The body of [useEffect]; [uuidv4] is the value the generator yields
    when it is called. *)
Definition effect (heartbeatInterval : option Z) (storageKey : option string)
    (uuidv4 : string) (p : Page) : Page :=
  let heartbeatInterval := default (5 * 60 * 1000) heartbeatInterval in
  let storageKey := default "anonymousUserId" storageKey in
  match window p with
  | None => p                                  (* Only run on client side *)
  | Some localStorage =>
      (* Get existing ID or create a new one *)
      let storedId := localStorage !! storageKey in
      let id := or_else storedId uuidv4 in
      let localStorage :=
        if negb (truthy storedId) then <[storageKey := id]> localStorage
        else localStorage in
      {| window := Some localStorage;
         anonymousId_state := Some id;
         sent := sent p ++ [id];
         interval := Some (heartbeatInterval, id) |}
  end.

(** One firing of the heartbeat timer. *)
Definition tick (p : Page) : Page :=
  match interval p with
  | Some (_, id) =>
      {| window := window p; anonymousId_state := anonymousId_state p;
         sent := sent p ++ [id]; interval := interval p |}
  | None => p
  end.

(** The clean-up the effect returns: [clearInterval(interval)]. *)
Definition clearInterval (p : Page) : Page :=
  {| window := window p; anonymousId_state := anonymousId_state p;
     sent := sent p; interval := None |}.

(** What the hook returns on the render that follows the effect. *)
Definition useSessionTracker (heartbeatInterval : option Z)
    (storageKey : option string) (uuidv4 : string) (p : Page) : option string :=
  anonymousId_state (effect heartbeatInterval storageKey uuidv4 p).

End Client.

(** ** Histories of mutations *)

Inductive Call :=
| CallTrackSession (anon : string)
| CallTrackUserAction (anon action : string)
    (resourceId : option string) (metadata : option Value)
| CallCleanupOldSessions (daysInactive : option Z).

(** The store after one call made at time [now]. *)
Definition exec (now : Z) (c : Call) (db : Db) : Db :=
  match c with
  | CallTrackSession anon => snd (mutation (trackSession anon now) db)
  | CallTrackUserAction anon action resourceId metadata =>
      snd (mutation (trackUserAction anon action resourceId metadata now) db)
  | CallCleanupOldSessions daysInactive =>
      snd (mutation (cleanupOldSessions daysInactive now) db)
  end.

Fixpoint run (history : list (Z * Call)) (db : Db) : Db :=
  match history with
  | [] => db
  | (now, c) :: rest => run rest (exec now c db)
  end.

(** The clock never goes back: every call is made no earlier than [t0] and
    than the calls before it. *)
Fixpoint chronological (t0 : Z) (history : list (Z * Call)) : Prop :=
  match history with
  | [] => True
  | (now, _) :: rest => t0 <= now /\ chronological now rest
  end.

(** Every row has its own id, below the next one to be handed out. *)
Definition wf (db : Db) : Prop :=
  NoDup (_id <$> sessions db) /\ Forall (fun d => (_id d < next_id db)%nat) (sessions db).

#[global] Instance wf_dec db : Decision (wf db).
Proof. unfold wf. apply _. Defined.

(** No two rows share an [anonymousId]. *)
Definition unique_anonymousId (db : Db) : Prop :=
  NoDup (anonymousId <$> sessions db).

Definition rows_of (anon : string) (db : Db) : list Doc :=
  filter (fun d => anonymousId d = anon) (sessions db).

(** ** Two [trackSession] calls in flight at once

    The handler of [trackSession] is in sessions.ts; what runs it is the
    [mutation] wrapper it imports from [./_generated/server], a file of
    the repository that is not among the sources.  What that wrapper does
    with two handlers in flight is therefore taken from the spec
    (section 5, and sections 4.3 and 7): each operation runs inside the
    data store's transactional execution model, within one transaction
    boundary, with no interleaving of another operation's writes between
    its reads and its writes; the store does no locking of its own and
    relies on the data layer for conflict detection on [anonymousId]; a
    conflict between two calls for a new identifier is resolved, by an
    update triggered by the conflict, and is not shown to the caller as
    an error.  [trackSession] suspends once between its index read and
    its write, holding [existing]. *)

Module Occ.

Inductive Client := ClientA | ClientB.

#[global] Instance Client_eq_dec : EqDecision Client.
Proof. solve_decision. Defined.

(** Modelled from the spec: the states of one call inside the transaction
    boundary of the [mutation] wrapper ([./_generated/server], missing):
    waiting to be run, suspended between its read and its write, done, or
    ended by an error. *)
Inductive Txn :=
| Idle                                     (* not started, or aborted *)
| Running (start_ts : nat) (now : Z) (existing : option Doc)
| Committed (ref : Id)
| Failed (e : Error).

(** Modelled from the spec: the table together with what the data layer
    keeps for conflict detection on [anonymousId] (spec, section 5): a
    commit counter and, per commit, the identifier whose index entry it
    wrote.  The [mutation] wrapper that holds this state is missing. *)
Record Server := {
  db : Db;
  commit_ts : nat;
  write_log : list (nat * string);         (* commit time, index key written *)
  txnA : Txn;
  txnB : Txn
}.

(** Modelled from the spec: the two points at which the missing
    [mutation] wrapper lets calls interleave, the start of a handler (its
    read) and its attempt to commit (its write). *)
Inductive Event :=
| Begin (c : Client) (now : Z)
| Commit (c : Client).

Definition txn_of (c : Client) (s : Server) : Txn :=
  match c with ClientA => txnA s | ClientB => txnB s end.

Definition set_txn (c : Client) (t : Txn) (s : Server) : Server :=
  match c with
  | ClientA => {| db := db s; commit_ts := commit_ts s;
                  write_log := write_log s; txnA := t; txnB := txnB s |}
  | ClientB => {| db := db s; commit_ts := commit_ts s;
                  write_log := write_log s; txnA := txnA s; txnB := t |}
  end.

(** [trackSession] from its suspension point on. *)
Definition trackSession_resume (anon : string) (now : Z)
    (existing : option Doc) : M Id :=
  match existing with
  | Some existing =>
      db_patch (_id existing) [PatchLastActive now] ;;!
      ret (_id existing)
  | None =>
      db_insert {| new_anonymousId := anon;
                   new_createdAt := now;
                   new_lastActive := now;
                   new_actions := [] |}
  end.

(** Modelled from the spec: the conflict detection on [anonymousId] that
    the spec (section 5) says the data layer provides, missing with the
    [mutation] wrapper: was the index entry of [anon] written by a commit
    made after [start_ts], the time of the read? *)
Definition conflict (anon : string) (start_ts : nat) (log : list (nat * string)) : bool :=
  existsb (fun e => (start_ts <? fst e)%nat && bool_decide (snd e = anon)) log.

(** Modelled from the spec: one step of the [mutation] wrapper
    ([./_generated/server], missing) on two [trackSession] calls.  A call
    that starts reads the index.  A call that tries to commit and whose
    read was overwritten meanwhile is not committed and not failed but run
    again (spec, sections 4.3 and 7: the conflict is resolved by an update
    it triggers, and is not exposed as an error); otherwise the handler's
    write, [trackSession_resume], is applied and recorded. *)
Definition step (anon : string) (s : Server) (e : Event) : Server :=
  match e with
  | Begin c now =>
      match txn_of c s with
      | Idle =>
          match first_by_anonymous_id anon (db s) with
          | Ok (existing, _) => set_txn c (Running (commit_ts s) now existing) s
          | Throw err => set_txn c (Failed err) s
          end
      | _ => s
      end
  | Commit c =>
      match txn_of c s with
      | Running start_ts now existing =>
          if conflict anon start_ts (write_log s) then set_txn c Idle s
          else
            match trackSession_resume anon now existing (db s) with
            | Ok (ref, db') =>
                set_txn c (Committed ref)
                  {| db := db'; commit_ts := S (commit_ts s);
                     write_log := (S (commit_ts s), anon) :: write_log s;
                     txnA := txnA s; txnB := txnB s |}
            | Throw err => set_txn c (Failed err) s
            end
      | _ => s
      end
  end.

Definition schedule (anon : string) (evs : list Event) (s : Server) : Server :=
  fold_left (step anon) evs s.

Definition start (d : Db) : Server :=
  {| db := d; commit_ts := 0%nat; write_log := []; txnA := Idle; txnB := Idle |}.

(** Modelled from the spec: the defect the spec (sections 4.3 and 9)
    warns of, a check-then-insert with no conflict detection: [step] with
    the check at commit left out. *)
Definition step_unchecked (anon : string) (s : Server) (e : Event) : Server :=
  match e with
  | Begin c now => step anon s e
  | Commit c =>
      match txn_of c s with
      | Running start_ts now existing =>
          match trackSession_resume anon now existing (db s) with
          | Ok (ref, db') =>
              set_txn c (Committed ref)
                {| db := db'; commit_ts := S (commit_ts s);
                   write_log := (S (commit_ts s), anon) :: write_log s;
                   txnA := txnA s; txnB := txnB s |}
          | Throw err => set_txn c (Failed err) s
          end
      | _ => s
      end
  end.

Definition schedule_unchecked (anon : string) (evs : list Event) (s : Server)
  : Server :=
  fold_left (step_unchecked anon) evs s.

End Occ.

(** ** Vocabulary of the statements *)

Definition day_ms : Z := 86400000.

(** The cutoff a cleanup called with [daysInactive] at [now] works with. *)
Definition cutoff_of (daysInactive : option Z) (now : Z) : Z :=
  now - default 30 daysInactive * day_ms.

Definition stale (cutoff : Z) (d : Doc) : Prop := lastActive d < cutoff.

#[global] Instance stale_dec cutoff d : Decision (stale cutoff d).
Proof. unfold stale. apply _. Defined.

(** The object [{ deletedCount, oldestDate: cutoff }]. *)
Definition cleanup_result (deletedCount cutoff : Z) : gmap string Z :=
  <["deletedCount" := deletedCount]> (<["oldestDate" := cutoff]> ∅).

(** The end-to-end history: a heartbeat at [T0], then one action at [T1]. *)
Definition scenario (T0 T1 : Z) (anon action : string) : Db :=
  run [(T0, CallTrackSession anon);
       (T1, CallTrackUserAction anon action None None)] empty_db.

Definition scenario_session (T0 T1 : Z) (anon action : string) : Doc :=
  {| _id := 0%nat; anonymousId := anon; createdAt := T0; lastActive := T1;
     actions := [{| Convex.action := action; timestamp := T1;
                    resourceId := None; metadata := None |}] |}.

(** The row [first()] finds for [anon] on the [by_anonymous_id] index. *)
Definition session_of (anon : string) (db : Db) : option Doc :=
  find (fun d => bool_decide (anonymousId d = anon)) (sessions db).

Definition touch (now : Z) (d : Doc) : Doc :=
  {| _id := _id d; anonymousId := anonymousId d; createdAt := createdAt d;
     lastActive := now; actions := actions d |}.

Definition fresh_session (i : Id) (anon : string) (now : Z) : Doc :=
  {| _id := i; anonymousId := anon; createdAt := now; lastActive := now;
     actions := [] |}.

Definition entry (action : string) (now : Z) (resourceId : option string)
    (metadata : option Value) : Action :=
  {| Convex.action := action; timestamp := now;
     Convex.resourceId := resourceId; Convex.metadata := metadata |}.

Definition record_action (e : Action) (d : Doc) : Doc :=
  {| _id := _id d; anonymousId := anonymousId d; createdAt := createdAt d;
     lastActive := timestamp e; actions := actions d ++ [e] |}.

(** One [trackUserAction] call of a client, and the entry it should leave. *)
Record ActionCall := {
  call_time : Z;
  call_action : string;
  call_resourceId : option string;
  call_metadata : option Value
}.

Definition call_of (anon : string) (c : ActionCall) : Z * Call :=
  (call_time c,
   CallTrackUserAction anon (call_action c) (call_resourceId c) (call_metadata c)).

Definition entry_of (c : ActionCall) : Action :=
  entry (call_action c) (call_time c) (call_resourceId c) (call_metadata c).

(** The time of the last call of a history that starts at [t0]. *)
Fixpoint end_time (t0 : Z) (history : list (Z * Call)) : Z :=
  match history with
  | [] => t0
  | (now, _) :: rest => end_time now rest
  end.

(** What one mutation called at [now] can do to the table. *)
Inductive transition (now : Z) (db : Db) : Db -> Prop :=
| transition_none :
    transition now db db
| transition_touch l1 e l2 e' :
    sessions db = l1 ++ e :: l2 ->
    _id e' = _id e ->
    anonymousId e' = anonymousId e ->
    createdAt e' = createdAt e ->
    lastActive e' = now ->
    transition now db {| sessions := l1 ++ e' :: l2; next_id := next_id db |}
| transition_create anon :
    session_of anon db = None ->
    transition now db
      {| sessions := sessions db ++ [fresh_session (next_id db) anon now];
         next_id := S (next_id db) |}
| transition_evict cutoff :
    transition now db
      {| sessions := filter (fun d => ~ stale cutoff d) (sessions db);
         next_id := next_id db |}.

(** No row claims activity before its creation or after [clock]. *)
Definition timely (clock : Z) (db : Db) : Prop :=
  forall d, d ∈ sessions db -> createdAt d <= lastActive d /\ lastActive d <= clock.

(** Every row of [db'] whose id [db] had handed out is a later state of
    the row of [db] with that id. *)
Definition evolves (db db' : Db) : Prop :=
  (next_id db <= next_id db')%nat /\
  forall d', d' ∈ sessions db' -> (_id d' < next_id db)%nat ->
    exists d, d ∈ sessions db /\ _id d = _id d' /\
              createdAt d' = createdAt d /\ lastActive d <= lastActive d'.

(** What a transaction in flight may assume about the store it will commit
    to: a committed one has left the identifier's row behind; a running one
    that sees no conflict still holds the current result of its read. *)
Definition txn_ok (anon : string) (d : Db) (commit_ts : nat)
    (log : list (nat * string)) (t : Occ.Txn) : Prop :=
  match t with
  | Occ.Idle => True
  | Occ.Running start_ts _ existing =>
      (start_ts <= commit_ts)%nat /\
      (Occ.conflict anon start_ts log = false -> existing = session_of anon d)
  | Occ.Committed ref => exists r, session_of anon d = Some r /\ _id r = ref
  | Occ.Failed _ => False
  end.

Definition consistent (anon : string) (s : Occ.Server) : Prop :=
  wf (Occ.db s) /\
  unique_anonymousId (Occ.db s) /\
  Forall (fun e => (fst e <= Occ.commit_ts s)%nat) (Occ.write_log s) /\
  txn_ok anon (Occ.db s) (Occ.commit_ts s) (Occ.write_log s) (Occ.txnA s) /\
  txn_ok anon (Occ.db s) (Occ.commit_ts s) (Occ.write_log s) (Occ.txnB s).

(** Both clients start, both try to commit, the loser is run again. *)
Definition race : list Occ.Event :=
  [Occ.Begin Occ.ClientA 1000; Occ.Begin Occ.ClientB 1001;
   Occ.Commit Occ.ClientA; Occ.Commit Occ.ClientB;
   Occ.Begin Occ.ClientB 1002; Occ.Commit Occ.ClientB].

(** Events that let both calls run to completion from wherever they are:
    each client tries to commit, is started again if that aborted it, and
    commits. *)
Definition finish (now : Z) : list Occ.Event :=
  [Occ.Commit Occ.ClientA; Occ.Begin Occ.ClientA now; Occ.Commit Occ.ClientA;
   Occ.Commit Occ.ClientB; Occ.Begin Occ.ClientB now; Occ.Commit Occ.ClientB].

Definition client_of (e : Occ.Event) : Occ.Client :=
  match e with Occ.Begin c _ => c | Occ.Commit c => c end.

(** ** Further vocabulary: heartbeats and what a history keeps *)

(** The heartbeats of one client, one per time. *)
Definition heartbeats (anon : string) (times : list Z) : list (Z * Call) :=
  (fun t => (t, CallTrackSession anon)) <$> times.

(** The rows of every identifier but [anon], in store order. *)
Definition others (anon : string) (db : Db) : list Doc :=
  filter (fun d => anonymousId d <> anon) (sessions db).

(** Does the call name the identifier [anon]? *)
Definition targets (anon : string) (c : Call) : Prop :=
  match c with
  | CallTrackSession a => a = anon
  | CallTrackUserAction a _ _ _ => a = anon
  | CallCleanupOldSessions _ => False
  end.

(** crons.ts: what the daily job runs. *)
Definition cron_cleanup (now : Z) (db : Db) : result (gmap string Z) * Db :=
  mutation (cleanupOldSessions_internal cron_daysInactive now) db.

(** What one mutation called at [now] does to the table, row by row. *)
Inductive change (now : Z) (db : Db) : Db -> Prop :=
| change_none :
    change now db db
| change_touch l1 e l2 :
    sessions db = l1 ++ e :: l2 ->
    change now db {| sessions := l1 ++ touch now e :: l2; next_id := next_id db |}
| change_action l1 e l2 a :
    sessions db = l1 ++ e :: l2 ->
    timestamp a = now ->
    change now db {| sessions := l1 ++ record_action a e :: l2; next_id := next_id db |}
| change_create anon :
    change now db
      {| sessions := sessions db ++ [fresh_session (next_id db) anon now];
         next_id := S (next_id db) |}
| change_evict cutoff :
    change now db
      {| sessions := filter (fun d => ~ stale cutoff d) (sessions db);
         next_id := next_id db |}.

(** The actions of a session were recorded in time order, none before the
    session was created and none after it was last active. *)
Definition actions_in_order (d : Doc) : Prop :=
  StronglySorted Z.le (timestamp <$> actions d) /\
  Forall (fun a => createdAt d <= timestamp a /\ timestamp a <= lastActive d) (actions d).

(** Every row of [db'] whose id [db] had handed out belongs to the same
    identifier as the row of [db] with that id, and has that row's actions
    followed by later ones. *)
Definition grows (db db' : Db) : Prop :=
  (next_id db <= next_id db')%nat /\
  forall d', d' ∈ sessions db' -> (_id d' < next_id db)%nat ->
    exists d, d ∈ sessions db /\ _id d = _id d' /\
              anonymousId d' = anonymousId d /\
              actions d `prefix_of` actions d'.

(** The heartbeats a page has sent, as they reach the server one per
    given time. *)
Definition deliver (times : list Z) (ids : list string) : list (Z * Call) :=
  (fun p => (p.1, CallTrackSession p.2)) <$> zip times ids.

Definition is_cleanup (c : Call) : Prop :=
  match c with CallCleanupOldSessions _ => True | _ => False end.

(** ** example/src/App.tsx *)

Module Example.

(** The mutation [handleClick] of [ExampleComponent] calls, for the
    identifier its hook returned. *)
Definition handleClick (anonymousId : string) : Call :=
  CallTrackUserAction anonymousId "example_button_click" None
    (Some (VObject [("component", VString "ExampleComponent")])).

(** Mounting [App]: the [SessionTracker] element, with its props, and
    [ExampleComponent], with the defaults, each run the hook's effect on
    the one [localStorage] of the page.  The result is the page as each of
    the two hook instances leaves it. *)
Definition mount (uuid_tracker uuid_component : string) (ls : gmap string string)
  : Client.Page * Client.Page :=
  let tracker :=
    Client.effect (Some 300000) (Some "exampleAppAnonymousId") uuid_tracker
      (Client.initial_page (Some ls)) in
  let component :=
    Client.effect None None uuid_component
      (Client.initial_page (Client.window tracker)) in
  (tracker, component).

End Example.

(** ** The arithmetic of the cutoff (sessions.ts, [cleanupSessionsHandler])

    [Date.now() - (daysInactive * 24 * 60 * 60 * 1000)] is evaluated on
    JavaScript numbers, binary64 floats: the four products from left to
    right, then the difference, each result rounded to the nearest
    number with a significand of 53 bits, ties to the even significand.
    On integral operands the exact result of each operation is an
    integer, so the rounding of integers is all that is needed.  (From
    magnitude 2^1024 on binary64 yields an infinity; that range is left
    out.) *)

Definition round53 (x : Z) : Z :=
  let a := Z.abs x in
  let k := Z.log2 a - 52 in                 (* low bits that do not fit *)
  if (k <=? 0)%Z then x
  else
    let q := a / 2 ^ k in
    let r := a mod 2 ^ k in
    let half := 2 ^ (k - 1) in
    let q' := if (r <? half)%Z then q
              else if (half <? r)%Z then q + 1
              else if Z.even q then q else q + 1 in
    Z.sgn x * (q' * 2 ^ k).

(** The cutoff as line 260 computes it, for an integral [daysInactive] and
    the integral [Date.now()]. *)
Definition cutoff_float64 (daysInactive now : Z) : Z :=
  round53 (now - round53 (round53 (round53 (round53 (daysInactive * 24) * 60) * 60) * 1000)).

(** Integers of magnitude below 2^53: binary64 holds each of them. *)
Definition safe_integer (x : Z) : Prop := Z.abs x < 2 ^ 53.

(** The inputs on which no step of the cutoff's arithmetic rounds. *)
Definition exact_cutoff (daysInactive now : Z) : Prop :=
  safe_integer now /\
  safe_integer (daysInactive * 86400000) /\
  safe_integer (now - daysInactive * 86400000).

(** Two sessions, one last active at 1000 and one at 5000. *)
Definition old_and_recent : Db :=
  run [(1000, CallTrackSession "old"); (5000, CallTrackSession "abc")] empty_db.

(** * Properties *)

(** Closed, decidable facts about concrete stores. *)
Ltac by_computation := apply (bool_decide_unpack _); vm_compute; reflexivity.

(** ** The store primitives *)

Section Store.

Implicit Types (d : Doc) (rows keep rest : list Doc) (i : Id).

Lemma delete_row_app keep d rest :
  Forall (fun k => _id k <> _id d) keep ->
  delete_row (_id d) (keep ++ d :: rest) = Some (keep ++ rest).
Proof.
  induction 1 as [|k keep Hk _ IH]; simpl.
  - by rewrite decide_True.
  - by rewrite decide_False, IH.
Qed.

Lemma patch_rows_app ps keep d rest :
  Forall (fun k => _id k <> _id d) keep ->
  patch_rows (_id d) ps (keep ++ d :: rest) = Some (keep ++ apply_patch ps d :: rest).
Proof.
  induction 1 as [|k keep Hk _ IH]; simpl.
  - by rewrite decide_True.
  - by rewrite decide_False, IH.
Qed.

Lemma find_Some_split {A} (p : A -> bool) (l : list A) (x : A) :
  find p l = Some x ->
  exists l1 l2, l = l1 ++ x :: l2 /\ p x = true /\ Forall (fun y => p y = false) l1.
Proof.
  induction l as [|y l IH]; simpl; [done|].
  destruct (p y) eqn:Hy.
  - intros [= ->]. by exists [], l.
  - intros (l1 & l2 & -> & Hx & Hl1)%IH.
    exists (y :: l1), l2. by repeat split; [|constructor].
Qed.

Lemma find_None_Forall {A} (p : A -> bool) (l : list A) :
  find p l = None <-> Forall (fun y => p y = false) l.
Proof.
  induction l as [|y l IH]; simpl; [by split; [constructor|]|].
  destruct (p y) eqn:Hy.
  - split; [done|]. intros [? _]%Forall_cons. congruence.
  - rewrite IH, Forall_cons. tauto.
Qed.

Lemma NoDup_ids_before keep d rest :
  NoDup (_id <$> (keep ++ d :: rest)) -> Forall (fun k => _id k <> _id d) keep.
Proof.
  rewrite fmap_app, fmap_cons. intros [_ [Hd _]]%NoDup_app.
  apply Forall_forall. intros k Hk Heq.
  apply (Hd (_id k)); [by apply list_elem_of_fmap_2|].
  rewrite Heq. left.
Qed.

End Store.

(** ** [cleanupSessionsHandler] *)

Section Cleanup.

Lemma delete_each_filter (P : Doc -> Prop) `{!forall d, Decision (P d)}
    (rows keep : list Doc) (n : Z) (nid : Id) :
  NoDup (_id <$> (keep ++ rows)) ->
  delete_each (filter P rows) n {| sessions := keep ++ rows; next_id := nid |}
  = Ok (n + Z.of_nat (length (filter P rows)),
        {| sessions := keep ++ filter (fun d => ~ P d) rows; next_id := nid |}).
Proof.
  revert keep n. induction rows as [|d rows IH]; intros keep n Hnd.
  - simpl. unfold ret. do 3 f_equal. lia.
  - destruct (decide (P d)) as [Hd|Hd].
    + rewrite (filter_cons_True P) by done.
      rewrite (filter_cons_False (fun d => ~ P d)) by tauto.
      simpl. unfold bind at 1, db_delete. simpl.
      rewrite delete_row_app by by eapply NoDup_ids_before.
      rewrite IH.
      * do 2 f_equal. lia.
      * revert Hnd. rewrite !fmap_app, fmap_cons.
        rewrite !NoDup_app, NoDup_cons.
        intros (? & Hk & _ & ?). repeat split; [done| |done].
        intros x Hx Hx'. apply (Hk x Hx). by right.
    + rewrite (filter_cons_False P) by done.
      rewrite (filter_cons_True (fun d => ~ P d)) by done.
      rewrite (cons_middle d keep), !app_assoc in *.
      rewrite <- !app_assoc. simpl.
      specialize (IH (keep ++ [d]) n).
      rewrite <- !app_assoc in IH. simpl in IH. apply IH.
      revert Hnd. by rewrite <- !app_assoc.
Qed.

Lemma cleanup_handler_spec (db : Db) (daysInactive : option Z) (now : Z) :
  wf db ->
  cleanupSessionsHandler daysInactive now db
  = Ok (cleanup_result
          (Z.of_nat (length (filter (stale (cutoff_of daysInactive now)) (sessions db))))
          (cutoff_of daysInactive now),
        {| sessions := filter (fun d => ~ stale (cutoff_of daysInactive now) d) (sessions db);
           next_id := next_id db |}).
Proof.
  intros [Hnd _]. unfold cleanupSessionsHandler, cutoff_of, day_ms.
  replace (now - default 30 daysInactive * 24 * 60 * 60 * 1000)
    with (now - default 30 daysInactive * 86400000) by lia.
  set (cutoff := now - _).
  unfold bind at 1, filter_collect.
  unfold bind at 1.
  destruct db as [rows nid]. simpl in *.
  pose proof (delete_each_filter (stale cutoff) rows [] 0 nid Hnd) as H.
  simpl in H.
  change (filter (fun d => lastActive d < cutoff) rows)
    with (filter (stale cutoff) rows).
  by rewrite H.
Qed.

End Cleanup.

Section CleanupClaims.

Lemma wf_filter (P : Doc -> Prop) `{!forall d, Decision (P d)} (db : Db) :
  wf db -> wf {| sessions := filter P (sessions db); next_id := next_id db |}.
Proof.
  intros [Hnd Hlt]. split; simpl.
  - eapply sublist_NoDup; [exact Hnd|].
    apply fmap_sublist, sublist_filter.
  - rewrite Forall_forall in *. intros d [_ Hd]%list_elem_of_filter. auto.
Qed.

Lemma length_filter_split {A} (P : A -> Prop) `{!forall x, Decision (P x)} (l : list A) :
  (length (filter P l) + length (filter (fun x => ~ P x) l))%nat = length l.
Proof.
  rewrite <- length_app. by rewrite filter_app_complement.
Qed.

Lemma mutation_cleanup (db : Db) (daysInactive : option Z) (now : Z) :
  wf db ->
  mutation (cleanupOldSessions daysInactive now) db
  = (Ok (cleanup_result
           (Z.of_nat (length (filter (stale (cutoff_of daysInactive now)) (sessions db))))
           (cutoff_of daysInactive now)),
     {| sessions := filter (fun d => ~ stale (cutoff_of daysInactive now) d) (sessions db);
        next_id := next_id db |}).
Proof.
  intros Hwf. unfold mutation, cleanupOldSessions.
  by rewrite cleanup_handler_spec.
Qed.

Lemma cleanup_result_deletedCount n c : cleanup_result n c !! "deletedCount" = Some n.
Proof. unfold cleanup_result. by rewrite lookup_insert_eq. Qed.

Lemma cleanup_result_oldestDate n c : cleanup_result n c !! "oldestDate" = Some c.
Proof. unfold cleanup_result. by rewrite lookup_insert_ne, lookup_insert_eq. Qed.

Lemma cleanup_result_other n c (k : string) :
  k <> "deletedCount" -> k <> "oldestDate" -> cleanup_result n c !! k = None.
Proof.
  intros ? ?. unfold cleanup_result.
  by rewrite !lookup_insert_ne, lookup_empty.
Qed.

End CleanupClaims.

(** ** [trackSession] and [trackUserAction] on one store *)

Section Handlers.

Lemma wf_empty : wf empty_db.
Proof. split; simpl; [apply NoDup_nil_2 | constructor]. Qed.

Lemma wf_replace (l1 l2 : list Doc) (e e' : Doc) (nid : Id) :
  _id e' = _id e ->
  wf {| sessions := l1 ++ e :: l2; next_id := nid |} ->
  wf {| sessions := l1 ++ e' :: l2; next_id := nid |}.
Proof.
  intros Hid [Hnd Hlt]. simpl in *. split; simpl.
  - revert Hnd. by rewrite !fmap_app, !fmap_cons, Hid.
  - revert Hlt. rewrite !Forall_app, !Forall_cons, Hid. tauto.
Qed.

Lemma wf_fresh_id (db : Db) : wf db -> next_id db ∉ _id <$> sessions db.
Proof.
  intros [_ Hlt] (d & Hd & Hin)%list_elem_of_fmap.
  rewrite Forall_forall in Hlt. specialize (Hlt d Hin). lia.
Qed.

Lemma wf_append (db : Db) (d : Doc) :
  _id d = next_id db ->
  wf db ->
  wf {| sessions := sessions db ++ [d]; next_id := S (next_id db) |}.
Proof.
  intros Hid Hwf. pose proof (wf_fresh_id db Hwf) as Hfresh.
  destruct Hwf as [Hnd Hlt]. split; simpl.
  - rewrite fmap_app. apply NoDup_app. repeat split; [done| |apply NoDup_singleton].
    intros x Hx ->%list_elem_of_singleton. by rewrite Hid in Hx.
  - apply Forall_app. split.
    + eapply Forall_impl; [exact Hlt|]. simpl. intros; lia.
    + apply Forall_singleton. simpl. lia.
Qed.

Lemma session_of_None (anon : string) (db : Db) :
  session_of anon db = None <->
  forall d, d ∈ sessions db -> anonymousId d <> anon.
Proof.
  unfold session_of. rewrite find_None_Forall, Forall_forall.
  by setoid_rewrite bool_decide_eq_false.
Qed.

Lemma session_of_Some (anon : string) (db : Db) (e : Doc) :
  session_of anon db = Some e ->
  anonymousId e = anon /\
  exists l1 l2, sessions db = l1 ++ e :: l2 /\
                Forall (fun d => anonymousId d <> anon) l1.
Proof.
  intros (l1 & l2 & Hl & He & Hl1)%find_Some_split.
  apply bool_decide_eq_true in He. split; [done|].
  exists l1, l2. split; [done|].
  eapply Forall_impl; [exact Hl1|]. intros d. by rewrite bool_decide_eq_false.
Qed.

Lemma session_of_middle (anon : string) (l1 l2 : list Doc) (e : Doc) (nid : Id) :
  Forall (fun d => anonymousId d <> anon) l1 ->
  anonymousId e = anon ->
  session_of anon {| sessions := l1 ++ e :: l2; next_id := nid |} = Some e.
Proof.
  intros Hl1 He. unfold session_of. simpl.
  induction Hl1 as [|d l1 Hd _ IH]; simpl.
  - by rewrite bool_decide_eq_true_2.
  - by rewrite bool_decide_eq_false_2.
Qed.

Lemma trackSession_found (db : Db) (anon : string) (now : Z) (e : Doc) (l1 l2 : list Doc) :
  wf db ->
  session_of anon db = Some e ->
  sessions db = l1 ++ e :: l2 ->
  trackSession anon now db
  = Ok (_id e, {| sessions := l1 ++ touch now e :: l2; next_id := next_id db |}).
Proof.
  intros [Hnd _] He Hl. unfold trackSession, bind, first_by_anonymous_id.
  fold (session_of anon db). rewrite He. unfold db_patch.
  rewrite Hl in *. by rewrite patch_rows_app by by eapply NoDup_ids_before.
Qed.

Lemma trackSession_new (db : Db) (anon : string) (now : Z) :
  session_of anon db = None ->
  trackSession anon now db
  = Ok (next_id db,
        {| sessions := sessions db ++ [fresh_session (next_id db) anon now];
           next_id := S (next_id db) |}).
Proof.
  intros He. unfold trackSession, bind, first_by_anonymous_id.
  fold (session_of anon db). by rewrite He.
Qed.

Lemma trackUserAction_found (db : Db) (anon action : string)
    (rid : option string) (meta : option Value) (now : Z)
    (s : Doc) (l1 l2 : list Doc) :
  wf db ->
  session_of anon db = Some s ->
  sessions db = l1 ++ s :: l2 ->
  trackUserAction anon action rid meta now db
  = Ok (tt, {| sessions := l1 ++ record_action (entry action now rid meta) s :: l2;
               next_id := next_id db |}).
Proof.
  intros [Hnd _] He Hl. unfold trackUserAction, bind, first_by_anonymous_id.
  fold (session_of anon db). rewrite He. unfold db_patch.
  rewrite Hl in *. by rewrite patch_rows_app by by eapply NoDup_ids_before.
Qed.

Lemma trackUserAction_missing (db : Db) (anon action : string)
    (rid : option string) (meta : option Value) (now : Z) :
  session_of anon db = None ->
  trackUserAction anon action rid meta now db = Throw (MkError "Session not found").
Proof.
  intros He. unfold trackUserAction, bind, first_by_anonymous_id.
  fold (session_of anon db). by rewrite He.
Qed.

End Handlers.

Section HandlerClaims.

Lemma mutation_trackUserAction_found (db : Db) (anon action : string)
    (rid : option string) (meta : option Value) (now : Z) (s : Doc) :
  wf db ->
  session_of anon db = Some s ->
  exists l1 l2,
    sessions db = l1 ++ s :: l2 /\
    Forall (fun d => anonymousId d <> anon) l1 /\
    mutation (trackUserAction anon action rid meta now) db
    = (Ok tt, {| sessions := l1 ++ record_action (entry action now rid meta) s :: l2;
                 next_id := next_id db |}).
Proof.
  intros Hwf Hs. destruct (session_of_Some _ _ _ Hs) as (_ & l1 & l2 & Hl & Hl1).
  exists l1, l2. repeat split; [done..|].
  unfold mutation. by erewrite trackUserAction_found.
Qed.

Lemma run_actions_append (anon : string) (calls : list ActionCall) :
  forall (db : Db) (s : Doc),
    wf db ->
    session_of anon db = Some s ->
    exists s',
      session_of anon (run (call_of anon <$> calls) db) = Some s' /\
      _id s' = _id s /\
      createdAt s' = createdAt s /\
      actions s' = actions s ++ (entry_of <$> calls).
Proof.
  induction calls as [|c calls IH]; intros db s Hwf Hs.
  - exists s. simpl. by rewrite app_nil_r.
  - destruct (mutation_trackUserAction_found db anon (call_action c)
                (call_resourceId c) (call_metadata c) (call_time c) s Hwf Hs)
      as (l1 & l2 & Hl & Hl1 & Hm).
    pose proof (session_of_Some _ _ _ Hs) as [Hanon _].
    rewrite !fmap_cons. unfold call_of at 1. cbn [run exec].
    rewrite Hm. cbn [snd].
    set (s1 := record_action _ s).
    destruct (IH {| sessions := l1 ++ s1 :: l2; next_id := next_id db |} s1)
      as (s' & Hs' & Hid & Hc & Ha).
    + apply (wf_replace l1 l2 s s1); [done|]. rewrite <- Hl. by destruct db.
    + by apply session_of_middle.
    + exists s'. repeat split; [done..|].
      rewrite Ha. subst s1. cbn [record_action actions].
      by rewrite <- app_assoc.
Qed.

(** C4. [trackSession] at time [now]: when the index lookup finds a row
    for the identifier, that row keeps its place, id, identifier,
    [createdAt] and [actions], gets [lastActive = now], no other row
    changes and the row's id is returned; when it finds none, a row with
    a fresh id, [createdAt = lastActive = now] and no actions is added
    after the others and its id is returned. *)
Theorem trackSession_find_or_create (db : Db) (anon : string) (now : Z) :
  wf db ->
  match session_of anon db with
  | Some e =>
      anonymousId e = anon /\
      exists l1 l2,
        sessions db = l1 ++ e :: l2 /\
        mutation (trackSession anon now) db
        = (Ok (_id e),
           {| sessions :=
                l1 ++ {| _id := _id e; anonymousId := anonymousId e;
                         createdAt := createdAt e; lastActive := now;
                         actions := actions e |} :: l2;
              next_id := next_id db |})
  | None =>
      (forall d, d ∈ sessions db -> anonymousId d <> anon /\ _id d <> next_id db) /\
      mutation (trackSession anon now) db
      = (Ok (next_id db),
         {| sessions :=
              sessions db ++ [{| _id := next_id db; anonymousId := anon;
                                 createdAt := now; lastActive := now;
                                 actions := [] |}];
            next_id := S (next_id db) |})
  end.
Proof.
  intros Hwf. destruct (session_of anon db) as [e|] eqn:He.
  - destruct (session_of_Some _ _ _ He) as (Hanon & l1 & l2 & Hl & _).
    split; [done|]. exists l1, l2. split; [done|].
    unfold mutation. by erewrite trackSession_found.
  - split.
    + intros d Hd. split; [by eapply session_of_None|].
      intros Hid. apply (wf_fresh_id db Hwf). rewrite <- Hid.
      by apply list_elem_of_fmap_2.
    + unfold mutation. by rewrite trackSession_new.
Qed.

(** C3. [trackUserAction] throws "Session not found" exactly when no row
    carries the identifier, and then the store is left as it was; when a
    row is found, the entry [{action, timestamp: now, resourceId,
    metadata}] goes to the end of its [actions], its [lastActive] becomes
    [now] and nothing else changes; after N such calls on an existing
    session its [actions] are the former ones followed by the N entries in
    call order. *)
Theorem trackUserAction_append_or_fail (db : Db) (anon : string) :
  wf db ->
  (session_of anon db = None <->
   forall d, d ∈ sessions db -> anonymousId d <> anon) /\
  (forall action rid meta now,
     match session_of anon db with
     | None =>
         mutation (trackUserAction anon action rid meta now) db
         = (Throw (MkError "Session not found"), db)
     | Some s =>
         exists l1 l2,
           sessions db = l1 ++ s :: l2 /\
           mutation (trackUserAction anon action rid meta now) db
           = (Ok tt,
              {| sessions :=
                   l1 ++ {| _id := _id s; anonymousId := anonymousId s;
                            createdAt := createdAt s; lastActive := now;
                            actions :=
                              actions s ++
                              [{| action := action; timestamp := now;
                                  resourceId := rid; metadata := meta |}] |}
                      :: l2;
                 next_id := next_id db |})
     end) /\
  (forall s calls,
     session_of anon db = Some s ->
     exists s',
       session_of anon (run (call_of anon <$> calls) db) = Some s' /\
       _id s' = _id s /\
       actions s' = actions s ++ (entry_of <$> calls) /\
       length (actions s') = (length (actions s) + length calls)%nat).
Proof.
  intros Hwf. split; [apply session_of_None|]. split.
  - intros action rid meta now.
    destruct (session_of anon db) as [s|] eqn:Hs.
    + destruct (mutation_trackUserAction_found db anon action rid meta now s Hwf Hs)
        as (l1 & l2 & Hl & _ & Hm).
      by exists l1, l2.
    + unfold mutation. by rewrite trackUserAction_missing.
  - intros s calls Hs.
    destruct (run_actions_append anon calls db s Hwf Hs) as (s' & Hs' & Hid & _ & Ha).
    exists s'. repeat split; [done..|].
    by rewrite Ha, length_app, length_fmap.
Qed.

Lemma trackSession_find_or_create_witness :
  wf (scenario 1000 2000 "abc" "click") /\
  session_of "abc" (scenario 1000 2000 "abc" "click")
  = Some (scenario_session 1000 2000 "abc" "click") /\
  (mutation (trackSession "abc" 3000) (scenario 1000 2000 "abc" "click")).1
  = Ok 0%nat.
Proof.
  assert (Hwf : wf (scenario 1000 2000 "abc" "click")) by by_computation.
  assert (Hs : session_of "abc" (scenario 1000 2000 "abc" "click")
               = Some (scenario_session 1000 2000 "abc" "click")) by reflexivity.
  split; [exact Hwf|]. split; [exact Hs|].
  pose proof (trackSession_find_or_create _ "abc" 3000 Hwf) as H.
  rewrite Hs in H. destruct H as (_ & l1 & l2 & _ & ->). reflexivity.
Defined.

Lemma trackUserAction_append_or_fail_witness :
  wf (scenario 1000 2000 "abc" "click") /\
  exists s',
    session_of "abc"
      (run (call_of "abc" <$>
              [{| call_time := 3000; call_action := "scroll";
                  call_resourceId := Some "page-1"; call_metadata := None |};
               {| call_time := 4000; call_action := "submit";
                  call_resourceId := None;
                  call_metadata := Some (VObject [("ok", VBoolean true)]) |}])
         (scenario 1000 2000 "abc" "click"))
    = Some s' /\
    actions s'
    = [entry "click" 2000 None None;
       entry "scroll" 3000 (Some "page-1") None;
       entry "submit" 4000 None (Some (VObject [("ok", VBoolean true)]))].
Proof.
  assert (Hwf : wf (scenario 1000 2000 "abc" "click")) by by_computation.
  split; [exact Hwf|].
  destruct (trackUserAction_append_or_fail _ "abc" Hwf) as (_ & _ & H).
  destruct (H (scenario_session 1000 2000 "abc" "click")
              [{| call_time := 3000; call_action := "scroll";
                  call_resourceId := Some "page-1"; call_metadata := None |};
               {| call_time := 4000; call_action := "submit";
                  call_resourceId := None;
                  call_metadata := Some (VObject [("ok", VBoolean true)]) |}]
              eq_refl) as (s' & Hs' & _ & Ha & _).
  exists s'. split; [exact Hs'|]. rewrite Ha. reflexivity.
Defined.

End HandlerClaims.

(** ** The end-to-end history *)

Section Scenario.

Lemma scenario_store (T0 T1 : Z) (anon action : string) :
  scenario T0 T1 anon action
  = {| sessions := [scenario_session T0 T1 anon action]; next_id := 1%nat |}.
Proof.
  unfold scenario, scenario_session, run, exec, mutation.
  rewrite trackSession_new by done. cbn [snd empty_db sessions next_id app].
  rewrite (trackUserAction_found _ anon action None None T1
             (fresh_session 0%nat anon T0) [] []); [done| | |done].
  - split; simpl; [apply NoDup_singleton | apply Forall_singleton; simpl; lia].
  - unfold session_of; simpl. by rewrite bool_decide_eq_true_2.
Qed.

Lemma scenario_wf (T0 T1 : Z) (anon action : string) :
  wf (scenario T0 T1 anon action).
Proof.
  rewrite scenario_store. split; simpl.
  - apply NoDup_singleton.
  - apply Forall_singleton. simpl. lia.
Qed.

End Scenario.

(** ** Eviction *)

Section Eviction.

Lemma cutoff_of_unfold (daysInactive : option Z) (now : Z) :
  cutoff_of daysInactive now = now - default 30 daysInactive * 86400000.
Proof. reflexivity. Qed.

Lemma round53_safe (x : Z) : safe_integer x -> round53 x = x.
Proof.
  unfold safe_integer, round53. intros Hx. cbn zeta.
  assert (Hk : Z.log2 (Z.abs x) - 52 <= 0).
  { destruct (decide (Z.abs x = 0)) as [->|Hne]; [done|].
    assert (Z.log2 (Z.abs x) < 53); [|lia].
    apply Z.log2_lt_pow2; lia. }
  apply Z.leb_le in Hk. by rewrite Hk.
Qed.

Lemma cutoff_float64_exact (daysInactive now : Z) :
  exact_cutoff daysInactive now ->
  cutoff_float64 daysInactive now = now - daysInactive * 86400000.
Proof.
  unfold exact_cutoff, cutoff_float64. intros (Hnow & Hprod & Hdiff).
  assert (H53 : 2 ^ 53 = 9007199254740992) by reflexivity.
  unfold safe_integer in *. rewrite H53 in *.
  rewrite (round53_safe (daysInactive * 24)) by (unfold safe_integer; lia).
  rewrite (round53_safe (daysInactive * 24 * 60)) by (unfold safe_integer; lia).
  rewrite (round53_safe (daysInactive * 24 * 60 * 60)) by (unfold safe_integer; lia).
  rewrite (round53_safe (daysInactive * 24 * 60 * 60 * 1000))
    by (unfold safe_integer; lia).
  replace (daysInactive * 24 * 60 * 60 * 1000) with (daysInactive * 86400000) by lia.
  apply round53_safe. unfold safe_integer. lia.
Qed.

Lemma cleanup_spec (db : Db) (daysInactive : option Z) (now : Z) :
  wf db ->
  exists obj db',
    mutation (cleanupOldSessions daysInactive now) db = (Ok obj, db') /\
    sessions db'
    = filter (fun d => ~ lastActive d < now - default 30 daysInactive * 86400000)
        (sessions db) /\
    obj !! "deletedCount"
    = Some (Z.of_nat (length (sessions db)) - Z.of_nat (length (sessions db'))) /\
    obj !! "oldestDate" = Some (now - default 30 daysInactive * 86400000) /\
    dom obj = {["deletedCount"; "oldestDate"]}.
Proof.
  intros Hwf. eexists _, _. split; [by apply mutation_cleanup|].
  rewrite cutoff_of_unfold. cbn [sessions].
  set (cutoff := now - _).
  split; [done|]. split; [|split].
  - rewrite cleanup_result_deletedCount. f_equal.
    pose proof (length_filter_split (stale cutoff) (sessions db)). lia.
  - apply cleanup_result_oldestDate.
  - unfold cleanup_result. rewrite !dom_insert_L, dom_empty_L. set_solver.
Qed.

(** C5 (amended). For an integral [daysInactive] (30 when absent) and
    [now] on which the float arithmetic of the source does not round
    ([now], [daysInactive * 86400000] and their difference of magnitude
    below 2^53), a cleanup works with
    [cutoff = now - daysInactive * 86400000], which is the value the
    source's arithmetic gives, removes exactly the rows with
    [lastActive < cutoff], strictly, keeps the others in order, and
    returns an object with exactly the two properties [deletedCount],
    the number of rows removed, and [oldestDate], the cutoff. *)
Theorem cleanup_deletes_stale_and_reports
    (db : Db) (daysInactive : option Z) (now : Z) :
  wf db ->
  exact_cutoff (default 30 daysInactive) now ->
  exists obj db',
    cutoff_float64 (default 30 daysInactive) now
    = now - default 30 daysInactive * 86400000 /\
    mutation (cleanupOldSessions daysInactive now) db = (Ok obj, db') /\
    sessions db'
    = filter (fun d => ~ lastActive d < now - default 30 daysInactive * 86400000)
        (sessions db) /\
    (forall d, d ∈ sessions db' <->
               d ∈ sessions db /\
               ~ lastActive d < now - default 30 daysInactive * 86400000) /\
    obj !! "deletedCount"
    = Some (Z.of_nat (length (sessions db)) - Z.of_nat (length (sessions db'))) /\
    obj !! "oldestDate" = Some (now - default 30 daysInactive * 86400000) /\
    dom obj = {["deletedCount"; "oldestDate"]}.
Proof.
  intros Hwf Hexact.
  destruct (cleanup_spec db daysInactive now Hwf) as (obj & db' & Hm & Hs & Hc & Ho & Hd).
  exists obj, db'. split; [by apply cutoff_float64_exact|].
  repeat (split; [done|]). split; [|done].
  intros d. rewrite Hs, list_elem_of_filter. tauto.
Qed.

Lemma cleanup_deletes_stale_and_reports_witness :
  wf (scenario 1000 2000 "abc" "click") /\
  exact_cutoff (default 30 (Some 0)) 5000 /\
  exists obj db',
    mutation (cleanupOldSessions (Some 0) 5000) (scenario 1000 2000 "abc" "click")
    = (Ok obj, db') /\
    sessions db' = [] /\
    obj !! "deletedCount" = Some 1 /\
    obj !! "oldestDate" = Some 5000.
Proof.
  assert (Hwf : wf (scenario 1000 2000 "abc" "click")) by by_computation.
  assert (Hexact : exact_cutoff (default 30 (Some 0)) 5000)
    by (repeat split; vm_compute; reflexivity).
  split; [exact Hwf|]. split; [exact Hexact|].
  destruct (cleanup_deletes_stale_and_reports _ (Some 0) 5000 Hwf Hexact)
    as (obj & db' & _ & Hm & Hs & _ & Hc & Ho & _).
  exists obj, db'. rewrite Hs in Hc. by repeat split.
Defined.

(** C5 as stated fails: the returned object has no [cutoffTimestamp]
    property. *)
Lemma cleanup_result_lacks_cutoffTimestamp :
  ~ (exists obj db' c,
       mutation (cleanupOldSessions (Some 0) 5000) (scenario 1000 2000 "abc" "click")
       = (Ok obj, db') /\
       obj !! "cutoffTimestamp" = Some c).
Proof.
  intros (obj & db' & c & Hm & Hc).
  rewrite mutation_cleanup in Hm by apply scenario_wf.
  injection Hm as <- _.
  by rewrite cleanup_result_other in Hc.
Qed.

Lemma scenario_cleanup_keeps (T0 T1 T : Z) (anon action : string) :
  T <= T1 ->
  mutation (cleanupOldSessions (Some 0) T) (scenario T0 T1 anon action)
  = (Ok (cleanup_result 0 T), scenario T0 T1 anon action).
Proof.
  intros HT. rewrite mutation_cleanup by apply scenario_wf.
  rewrite scenario_store. cbn [sessions next_id].
  rewrite filter_cons_False, filter_cons_True, !filter_nil;
    [ | unfold stale, cutoff_of, day_ms; simpl; lia..].
  unfold cutoff_of, day_ms. simpl. by rewrite Z.sub_0_r.
Qed.

Lemma scenario_cleanup_drops (T0 T1 T : Z) (anon action : string) :
  T1 < T ->
  mutation (cleanupOldSessions (Some 0) T) (scenario T0 T1 anon action)
  = (Ok (cleanup_result 1 T), {| sessions := []; next_id := 1%nat |}).
Proof.
  intros HT. rewrite mutation_cleanup by apply scenario_wf.
  rewrite scenario_store. cbn [sessions next_id].
  rewrite filter_cons_True, filter_cons_False, !filter_nil;
    [ | unfold stale, cutoff_of, day_ms; simpl; lia..].
  unfold cutoff_of, day_ms. simpl. by rewrite Z.sub_0_r.
Qed.

(** C6 (amended). After a heartbeat at [T0] and one action at [T1] the
    store holds one session, with [lastActive = T1].  A cleanup with
    [daysInactive = 0] evaluated at [T1] has [cutoff = T1]; the test
    [lastActive < cutoff] is strict, so the session stays and
    [deletedCount] is 0.  Evaluated at any later time the same cleanup
    removes the session and returns [deletedCount = 1]. *)
Theorem scenario_cleanup_at_boundary (T0 T1 T : Z) (anon action : string) :
  sessions (scenario T0 T1 anon action) = [scenario_session T0 T1 anon action] /\
  lastActive (scenario_session T0 T1 anon action) = T1 /\
  (exists obj,
     mutation (cleanupOldSessions (Some 0) T1) (scenario T0 T1 anon action)
     = (Ok obj, scenario T0 T1 anon action) /\
     obj !! "deletedCount" = Some 0) /\
  (T1 < T ->
   exists obj db',
     mutation (cleanupOldSessions (Some 0) T) (scenario T0 T1 anon action)
     = (Ok obj, db') /\
     sessions db' = [] /\
     obj !! "deletedCount" = Some 1).
Proof.
  split; [by rewrite scenario_store|]. split; [done|]. split.
  - eexists. rewrite scenario_cleanup_keeps by lia.
    split; [done|]. apply cleanup_result_deletedCount.
  - intros HT. eexists _, _. rewrite scenario_cleanup_drops by done.
    split; [done|]. split; [done|]. apply cleanup_result_deletedCount.
Qed.

Lemma scenario_cleanup_at_boundary_witness :
  1000 < 2000 /\
  exists obj db',
    mutation (cleanupOldSessions (Some 0) 2000) (scenario 0 1000 "abc" "click")
    = (Ok obj, db') /\
    sessions db' = [] /\
    obj !! "deletedCount" = Some 1.
Proof.
  split; [lia|].
  apply (scenario_cleanup_at_boundary 0 1000 2000 "abc" "click"). lia.
Defined.

(** C6 as stated fails: evaluated at [T1] itself the cleanup deletes
    nothing. *)
Lemma scenario_cleanup_at_T1_keeps_session :
  ~ (exists obj db',
       mutation (cleanupOldSessions (Some 0) 2000) (scenario 1000 2000 "abc" "click")
       = (Ok obj, db') /\
       sessions db' = [] /\
       obj !! "deletedCount" = Some 1).
Proof.
  intros (obj & db' & Hm & Hs & Hc).
  rewrite scenario_cleanup_keeps in Hm by lia.
  injection Hm as <- _.
  by rewrite cleanup_result_deletedCount in Hc.
Qed.

Lemma filter_none {A} (P : A -> Prop) `{!forall x, Decision (P x)} (l : list A) :
  (forall x, x ∈ l -> ~ P x) -> filter P l = [].
Proof.
  intros Hnot. apply elem_of_nil_inv. intros x [HP Hx]%list_elem_of_filter.
  by apply (Hnot x).
Qed.

Lemma filter_all {A} (P : A -> Prop) `{!forall x, Decision (P x)} (l : list A) :
  (forall x, x ∈ l -> P x) -> filter P l = l.
Proof.
  induction l as [|x l IH]; intros Hall; [done|].
  rewrite filter_cons_True by (apply Hall; left).
  rewrite IH; [done|]. intros y Hy. apply Hall. by right.
Qed.

(** C8 (amended). When a cleanup is followed by a second one, with the
    same or a later cutoff, no session having changed in between, and no
    session went stale in between, that is no session has its
    [lastActive] at or after the first cutoff and before the second, the
    second cleanup finds nothing to delete: it returns
    [deletedCount = 0] and leaves the store as the first one left it.
    (The order of the two cutoffs plays no part: for an earlier second
    cutoff the condition on the sessions holds of itself.) *)
Theorem cleanup_again_without_new_stale_deletes_nothing
    (db : Db) (d1 d2 : option Z) (now1 now2 : Z) :
  wf db ->
  (forall s, s ∈ sessions db ->
     now1 - default 30 d1 * 86400000 <= lastActive s ->
     now2 - default 30 d2 * 86400000 <= lastActive s) ->
  exists obj1 db1 obj2,
    mutation (cleanupOldSessions d1 now1) db = (Ok obj1, db1) /\
    mutation (cleanupOldSessions d2 now2) db1 = (Ok obj2, db1) /\
    obj2 !! "deletedCount" = Some 0.
Proof.
  intros Hwf Hnone. eexists _, _, _.
  split; [by apply mutation_cleanup|].
  rewrite mutation_cleanup by by apply wf_filter.
  cbn [sessions next_id]. rewrite !cutoff_of_unfold.
  assert (Hkept : forall s,
            s ∈ filter (fun d => ~ stale (now1 - default 30 d1 * 86400000) d)
                  (sessions db) ->
            ~ stale (now2 - default 30 d2 * 86400000) s).
  { intros s [Hs Hin]%list_elem_of_filter. unfold stale in *.
    specialize (Hnone s Hin). lia. }
  rewrite (filter_none (stale _)) by done.
  rewrite (filter_all (fun d => ~ stale _ d)) by done.
  split; [done|]. apply cleanup_result_deletedCount.
Qed.

Lemma cleanup_again_without_new_stale_deletes_nothing_witness :
  wf old_and_recent /\
  2000 - default 30 (Some 0) * 86400000 < 3000 - default 30 (Some 0) * 86400000 /\
  (forall s, s ∈ sessions old_and_recent ->
     2000 - default 30 (Some 0) * 86400000 <= lastActive s ->
     3000 - default 30 (Some 0) * 86400000 <= lastActive s) /\
  exists obj1 db1 obj2,
    mutation (cleanupOldSessions (Some 0) 2000) old_and_recent = (Ok obj1, db1) /\
    mutation (cleanupOldSessions (Some 0) 3000) db1 = (Ok obj2, db1) /\
    obj1 !! "deletedCount" = Some 1 /\
    obj2 !! "deletedCount" = Some 0.
Proof.
  assert (Hwf : wf old_and_recent) by by_computation.
  assert (Hnone : forall s, s ∈ sessions old_and_recent ->
            2000 - default 30 (Some 0) * 86400000 <= lastActive s ->
            3000 - default 30 (Some 0) * 86400000 <= lastActive s).
  { intros s Hs.
    change (sessions old_and_recent)
      with [fresh_session 0%nat "old" 1000; fresh_session 1%nat "abc" 5000] in Hs.
    apply elem_of_cons in Hs as [->|Hs]; [simpl; lia|].
    apply list_elem_of_singleton in Hs as ->. simpl. lia. }
  split; [exact Hwf|]. split; [simpl; lia|]. split; [exact Hnone|].
  destruct (cleanup_again_without_new_stale_deletes_nothing _ (Some 0) (Some 0)
              2000 3000 Hwf Hnone) as (obj1 & db1 & obj2 & Hm1 & Hm2 & Hc2).
  exists obj1, db1, obj2. repeat split; [done..| |done].
  rewrite mutation_cleanup in Hm1 by done.
  injection Hm1 as <- _. by rewrite cleanup_result_deletedCount.
Defined.

(** C8 as stated fails: a second cleanup with a later cutoff deletes what
    went stale between the two cutoffs. *)
Lemma cleanup_again_later_cutoff_deletes :
  ~ (2000 - 0 * 86400000 <= 5000 - 0 * 86400000 ->
     forall obj1 db1 obj2 db2,
       mutation (cleanupOldSessions (Some 0) 2000) (scenario 1000 2000 "abc" "click")
       = (Ok obj1, db1) ->
       mutation (cleanupOldSessions (Some 0) 5000) db1 = (Ok obj2, db2) ->
       obj2 !! "deletedCount" = Some 0).
Proof.
  intros H.
  specialize (H ltac:(lia) _ _ _ _
                (scenario_cleanup_keeps 1000 2000 2000 "abc" "click" ltac:(lia))
                (scenario_cleanup_drops 1000 2000 5000 "abc" "click" ltac:(lia))).
  by rewrite cleanup_result_deletedCount in H.
Qed.

(** C10 (amended). The cleanup checks nothing about [daysInactive]: for
    every integral value, zero and negative included, on which the float
    arithmetic of the source does not round ([now],
    [daysInactive * 86400000] and their difference of magnitude below
    2^53) it never throws, works with
    [cutoff = now - daysInactive * 86400000], the value the source's
    arithmetic gives and the one it returns, and removes every row with
    [lastActive < cutoff].  For a negative [daysInactive] the cutoff lies
    after [now], so every session active up to [now] is removed. *)
Theorem cleanup_accepts_any_daysInactive (db : Db) (daysInactive now : Z) :
  wf db ->
  exact_cutoff daysInactive now ->
  exists obj db',
    cutoff_float64 daysInactive now = now - daysInactive * 86400000 /\
    mutation (cleanupOldSessions (Some daysInactive) now) db = (Ok obj, db') /\
    obj !! "oldestDate" = Some (now - daysInactive * 86400000) /\
    (forall d, d ∈ sessions db' <->
               d ∈ sessions db /\ ~ lastActive d < now - daysInactive * 86400000) /\
    (daysInactive < 0 ->
     now < now - daysInactive * 86400000 /\
     forall d, d ∈ sessions db -> lastActive d <= now -> d ∉ sessions db').
Proof.
  intros Hwf Hexact.
  destruct (cleanup_spec db (Some daysInactive) now Hwf)
    as (obj & db' & Hm & Hs & _ & Ho & _).
  exists obj, db'. split; [by apply cutoff_float64_exact|].
  simpl in *. split; [done|]. split; [done|].
  assert (Hin : forall d, d ∈ sessions db' <->
                  d ∈ sessions db /\ ~ lastActive d < now - daysInactive * 86400000).
  { intros d. rewrite Hs, list_elem_of_filter. tauto. }
  split; [done|].
  intros Hneg. split; [lia|].
  intros d Hd Hact [_ Hkeep]%Hin. lia.
Qed.

Lemma cleanup_accepts_any_daysInactive_witness :
  wf (scenario 1000 2000 "abc" "click") /\
  exact_cutoff (-1) 2000 /\
  -1 < 0 /\
  exists obj db',
    mutation (cleanupOldSessions (Some (-1)) 2000) (scenario 1000 2000 "abc" "click")
    = (Ok obj, db') /\
    obj !! "oldestDate" = Some 86402000 /\
    scenario_session 1000 2000 "abc" "click" ∉ sessions db'.
Proof.
  assert (Hwf : wf (scenario 1000 2000 "abc" "click")) by by_computation.
  assert (Hexact : exact_cutoff (-1) 2000)
    by (repeat split; vm_compute; reflexivity).
  split; [exact Hwf|]. split; [exact Hexact|]. split; [lia|].
  destruct (cleanup_accepts_any_daysInactive _ (-1) 2000 Hwf Hexact)
    as (obj & db' & _ & Hm & Ho & _ & Hneg).
  exists obj, db'. repeat split; [done..|].
  apply Hneg; [lia| |simpl; lia].
  rewrite scenario_store. simpl. left.
Defined.

(** C10 as stated fails: past the safe integers the source's arithmetic
    rounds, and the cutoff it computes and returns is not
    [now - daysInactive * 86400000]. *)
Lemma cleanup_cutoff_rounds_past_safe_integers :
  cutoff_float64 104249992 2001 <> 2001 - 104249992 * 86400000.
Proof. vm_compute. discriminate. Qed.

End Eviction.

(** ** The active-session query *)

Section ActiveSessions.

Lemma query_getActiveSessions (db : Db) (minutesActive : option Z) (now : Z) :
  query (getActiveSessions minutesActive now) db
  = Ok (filter (fun d => lastActive d > now - default 15 minutesActive * 60000)
          (sessions db)).
Proof.
  unfold query, getActiveSessions, filter_collect.
  by replace (now - default 15 minutesActive * 60 * 1000)
    with (now - default 15 minutesActive * 60000) by lia.
Qed.

(** C2 (amended). [getActiveSessions], called with [minutesActive] (15
    when absent) at [now], returns, in store order, exactly the sessions
    with [lastActive > now - minutesActive * 60000]; the comparison is
    strict, so a session whose [lastActive] equals the boundary is left
    out. *)
Theorem getActiveSessions_window (db : Db) (minutesActive : option Z) (now : Z) :
  exists res,
    query (getActiveSessions minutesActive now) db = Ok res /\
    res = filter (fun d => lastActive d > now - default 15 minutesActive * 60000)
            (sessions db) /\
    (forall d, d ∈ res <->
               d ∈ sessions db /\
               now - default 15 minutesActive * 60000 < lastActive d) /\
    (forall d, lastActive d = now - default 15 minutesActive * 60000 -> d ∉ res).
Proof.
  eexists. split; [apply query_getActiveSessions|]. split; [done|]. split.
  - intros d. rewrite list_elem_of_filter. split; intros [? ?]; split; (done || lia).
  - intros d Hd [Hgt _]%list_elem_of_filter. lia.
Qed.

Lemma getActiveSessions_window_witness :
  lastActive (scenario_session 1000 2000 "abc" "click") = 62000 - 1 * 60000 /\
  query (getActiveSessions (Some 1) 62000) (scenario 1000 2000 "abc" "click") = Ok [] /\
  query (getActiveSessions (Some 1) 61999) (scenario 1000 2000 "abc" "click")
  = Ok [scenario_session 1000 2000 "abc" "click"].
Proof.
  split; [reflexivity|].
  destruct (getActiveSessions_window (scenario 1000 2000 "abc" "click") (Some 1) 62000)
    as (res & Hq & Hres & _ & Hout).
  destruct (getActiveSessions_window (scenario 1000 2000 "abc" "click") (Some 1) 61999)
    as (res' & Hq' & Hres' & _).
  rewrite Hq, Hq', Hres, Hres'. split; reflexivity.
Defined.

(** C2 as stated fails: a session whose [lastActive] is exactly
    [now - minutesActive * 60000] is not returned. *)
Lemma getActiveSessions_excludes_boundary :
  ~ (exists res,
       query (getActiveSessions (Some 1) 62000) (scenario 1000 2000 "abc" "click")
       = Ok res /\
       forall d, d ∈ res <->
                 d ∈ sessions (scenario 1000 2000 "abc" "click") /\
                 lastActive d >= 62000 - 1 * 60000).
Proof.
  intros (res & Hq & Hres).
  rewrite query_getActiveSessions, scenario_store in Hq.
  injection Hq as <-.
  assert (Hin : scenario_session 1000 2000 "abc" "click"
                ∈ filter (fun d => lastActive d > 62000 - default 15 (Some 1) * 60000)
                    [scenario_session 1000 2000 "abc" "click"]).
  { apply Hres. split; [|simpl; lia]. rewrite scenario_store. simpl. left. }
  apply list_elem_of_filter in Hin as [Hgt _]. simpl in Hgt. lia.
Qed.

End ActiveSessions.

(** ** The anonymous identifier of the client *)

Section Identity.

Import Client.

Lemma truthy_Some (v : string) : truthy (Some v) = true <-> v <> EmptyString.
Proof.
  unfold truthy. rewrite negb_true_iff. apply String.eqb_neq.
Qed.

Lemma effect_stored (hb : option Z) (storageKey : option string)
    (uuidv4 v : string) (p : Page) (ls : gmap string string) :
  window p = Some ls ->
  ls !! default "anonymousUserId" storageKey = Some v ->
  v <> EmptyString ->
  window (effect hb storageKey uuidv4 p) = Some ls /\
  anonymousId_state (effect hb storageKey uuidv4 p) = Some v.
Proof.
  intros Hw Hv Hne. unfold effect, or_else. rewrite Hw. cbn zeta. rewrite Hv.
  apply truthy_Some in Hne. by rewrite Hne.
Qed.

Lemma effect_generated (hb : option Z) (storageKey : option string)
    (uuidv4 : string) (p : Page) (ls : gmap string string) :
  window p = Some ls ->
  ls !! default "anonymousUserId" storageKey = None \/
  ls !! default "anonymousUserId" storageKey = Some EmptyString ->
  window (effect hb storageKey uuidv4 p)
  = Some (<[default "anonymousUserId" storageKey := uuidv4]> ls) /\
  anonymousId_state (effect hb storageKey uuidv4 p) = Some uuidv4.
Proof.
  intros Hw Hv. unfold effect, or_else. rewrite Hw. cbn zeta.
  by destruct Hv as [-> | ->].
Qed.

(** C9 (amended). With no [window] the effect changes nothing and the hook
    keeps returning the [null] it started with.  With a [localStorage]:
    a non-empty string stored under the key is returned as it is and
    nothing is written; when nothing, or the empty string, is stored
    there, the generated identifier is written under the key and
    returned.  Once a non-empty identifier was generated, running the
    effect again on the same storage returns it again and writes
    nothing, whatever the generator would yield. *)
Theorem useSessionTracker_identity (hb : option Z) (storageKey : option string)
    (uuidv4 uuidv4' : string) (p : Page) :
  useSessionTracker hb storageKey uuidv4 (initial_page None) = None /\
  (window p = None ->
   effect hb storageKey uuidv4 p = p /\
   useSessionTracker hb storageKey uuidv4 p = anonymousId_state p) /\
  (forall ls v,
     window p = Some ls ->
     ls !! default "anonymousUserId" storageKey = Some v ->
     v <> EmptyString ->
     window (effect hb storageKey uuidv4 p) = Some ls /\
     useSessionTracker hb storageKey uuidv4 p = Some v) /\
  (forall ls,
     window p = Some ls ->
     ls !! default "anonymousUserId" storageKey = None \/
     ls !! default "anonymousUserId" storageKey = Some EmptyString ->
     window (effect hb storageKey uuidv4 p)
     = Some (<[default "anonymousUserId" storageKey := uuidv4]> ls) /\
     useSessionTracker hb storageKey uuidv4 p = Some uuidv4) /\
  (forall ls,
     window p = Some ls ->
     uuidv4 <> EmptyString ->
     useSessionTracker hb storageKey uuidv4' (effect hb storageKey uuidv4 p)
     = useSessionTracker hb storageKey uuidv4 p /\
     window (effect hb storageKey uuidv4' (effect hb storageKey uuidv4 p))
     = window (effect hb storageKey uuidv4 p)).
Proof.
  split; [done|]. split; [|split; [|split]].
  - intros Hw. unfold useSessionTracker, effect. by rewrite Hw.
  - intros ls v Hw Hv Hne. by apply effect_stored.
  - intros ls Hw Hv. by apply effect_generated.
  - intros ls Hw Hne. unfold useSessionTracker.
    destruct (ls !! default "anonymousUserId" storageKey) as [v|] eqn:Hv;
      [destruct (decide (v = EmptyString)) as [->|Hv']|].
    + destruct (effect_generated hb storageKey uuidv4 p ls Hw (or_intror Hv)) as [Hw1 Hid1].
      destruct (effect_stored hb storageKey uuidv4' uuidv4 _ _ Hw1
                  (lookup_insert_eq _ _ _) Hne) as [Hw2 Hid2].
      by rewrite Hw1, Hw2, Hid1, Hid2.
    + destruct (effect_stored hb storageKey uuidv4 v p ls Hw Hv Hv') as [Hw1 Hid1].
      destruct (effect_stored hb storageKey uuidv4' v _ _ Hw1 Hv Hv') as [Hw2 Hid2].
      by rewrite Hw1, Hw2, Hid1, Hid2.
    + destruct (effect_generated hb storageKey uuidv4 p ls Hw (or_introl Hv)) as [Hw1 Hid1].
      destruct (effect_stored hb storageKey uuidv4' uuidv4 _ _ Hw1
                  (lookup_insert_eq _ _ _) Hne) as [Hw2 Hid2].
      by rewrite Hw1, Hw2, Hid1, Hid2.
Qed.

Lemma useSessionTracker_identity_witness :
  window (initial_page (Some ∅)) = Some ∅ /\
  "110ec58a-a0f2-4ac4-8393-c866d813b8d1" <> EmptyString /\
  useSessionTracker None (Some "myAppUserId") "7c9e6679-7425-40de-944b-e07fc1f90ae7"
    (effect None (Some "myAppUserId") "110ec58a-a0f2-4ac4-8393-c866d813b8d1"
       (initial_page (Some ∅)))
  = Some "110ec58a-a0f2-4ac4-8393-c866d813b8d1".
Proof.
  split; [reflexivity|]. split; [discriminate|].
  destruct (useSessionTracker_identity None (Some "myAppUserId")
              "110ec58a-a0f2-4ac4-8393-c866d813b8d1"
              "7c9e6679-7425-40de-944b-e07fc1f90ae7"
              (initial_page (Some ∅))) as (_ & _ & _ & Hgen & Hagain).
  destruct (Hagain ∅ eq_refl) as [-> _]; [discriminate|].
  destruct (Hgen ∅ eq_refl) as [_ ->]; [left; apply lookup_empty|].
  reflexivity.
Defined.

(** C9 as stated fails: an empty string stored under the key is a stored
    value, yet it is not returned and the storage is written. *)
Lemma empty_stored_identifier_is_replaced :
  ~ (useSessionTracker None None "110ec58a-a0f2-4ac4-8393-c866d813b8d1"
       (initial_page (Some {["anonymousUserId" := EmptyString]}))
     = Some EmptyString /\
     window (effect None None "110ec58a-a0f2-4ac4-8393-c866d813b8d1"
               (initial_page (Some {["anonymousUserId" := EmptyString]})))
     = Some {["anonymousUserId" := EmptyString]}).
Proof.
  intros [Hid _]. unfold useSessionTracker in Hid.
  destruct (effect_generated None None "110ec58a-a0f2-4ac4-8393-c866d813b8d1"
              (initial_page (Some {["anonymousUserId" := EmptyString]}))
              {["anonymousUserId" := EmptyString]} eq_refl) as [_ Hgen].
  - right. apply lookup_singleton_eq.
  - rewrite Hgen in Hid. discriminate.
Qed.

End Identity.

(** ** Histories: what every reachable store satisfies *)

Section Histories.

Lemma exec_transition (now : Z) (c : Call) (db : Db) :
  wf db -> transition now db (exec now c db).
Proof.
  intros Hwf. destruct c as [anon|anon action rid meta|daysInactive]; cbn [exec].
  - destruct (session_of anon db) as [e|] eqn:He.
    + destruct (session_of_Some _ _ _ He) as (_ & l1 & l2 & Hl & _).
      unfold mutation. erewrite trackSession_found by done. cbn [snd].
      by eapply (transition_touch now db l1 e l2 (touch now e)).
    + unfold mutation. rewrite trackSession_new by done. cbn [snd].
      by apply transition_create.
  - destruct (session_of anon db) as [s|] eqn:Hs.
    + destruct (session_of_Some _ _ _ Hs) as (_ & l1 & l2 & Hl & _).
      unfold mutation. erewrite trackUserAction_found by done. cbn [snd].
      by eapply (transition_touch now db l1 s l2
                   (record_action (entry action now rid meta) s)).
    + unfold mutation. rewrite trackUserAction_missing by done. cbn [snd].
      apply transition_none.
  - rewrite mutation_cleanup by done. cbn [snd].
    apply transition_evict.
Qed.

Lemma transition_wf (now : Z) (db db' : Db) :
  transition now db db' -> wf db -> wf db'.
Proof.
  intros [|l1 e l2 e' Hl Hid _ _ _|anon _|cutoff] Hwf.
  - done.
  - apply (wf_replace l1 l2 e e'); [done|]. rewrite <- Hl. by destruct db.
  - by apply wf_append.
  - by apply wf_filter.
Qed.

Lemma transition_unique (now : Z) (db db' : Db) :
  transition now db db' -> unique_anonymousId db -> unique_anonymousId db'.
Proof.
  unfold unique_anonymousId.
  intros [|l1 e l2 e' Hl _ Hanon _ _|anon Hnone|cutoff] Hu; simpl.
  - done.
  - revert Hu. by rewrite Hl, !fmap_app, !fmap_cons, Hanon.
  - rewrite fmap_app. apply NoDup_app. repeat split; [done| |apply NoDup_singleton].
    intros a (d & -> & Hd)%list_elem_of_fmap Ha%list_elem_of_singleton.
    rewrite session_of_None in Hnone. by apply (Hnone d Hd).
  - eapply sublist_NoDup; [exact Hu|]. apply fmap_sublist, sublist_filter.
Qed.

Lemma transition_timely (clock now : Z) (db db' : Db) :
  transition now db db' -> clock <= now -> timely clock db -> timely now db'.
Proof.
  unfold timely.
  intros [|l1 e l2 e' Hl _ _ Hc Hla|anon _|cutoff] Hclock Ht d; simpl.
  - intros Hd. specialize (Ht d Hd). lia.
  - rewrite Hl in Ht. rewrite elem_of_app, elem_of_cons.
    intros [Hd|[->|Hd]].
    + specialize (Ht d). rewrite elem_of_app in Ht.
      specialize (Ht (or_introl Hd)). lia.
    + specialize (Ht e). rewrite elem_of_app, elem_of_cons in Ht.
      specialize (Ht (or_intror (or_introl eq_refl))). lia.
    + specialize (Ht d). rewrite elem_of_app, elem_of_cons in Ht.
      specialize (Ht (or_intror (or_intror Hd))). lia.
  - rewrite elem_of_app, list_elem_of_singleton.
    intros [Hd| ->]; [specialize (Ht d Hd); lia|]. simpl. lia.
  - intros [_ Hd]%list_elem_of_filter. specialize (Ht d Hd). lia.
Qed.

Lemma transition_evolves (clock now : Z) (db db' : Db) :
  transition now db db' -> clock <= now -> timely clock db -> evolves db db'.
Proof.
  unfold timely, evolves.
  intros [|l1 e l2 e' Hl Hid _ Hc Hla|anon _|cutoff] Hclock Ht; simpl.
  - split; [done|]. intros d' Hd' _. exists d'. repeat split; [done..|lia].
  - split; [done|]. intros d'. rewrite Hl in *.
    rewrite elem_of_app, elem_of_cons. intros Hd' _.
    destruct Hd' as [Hd'|[->|Hd']].
    + exists d'. rewrite elem_of_app. repeat split; [by left|done..|lia].
    + exists e. rewrite elem_of_app, elem_of_cons.
      repeat split; [by right; left|done..|].
      specialize (Ht e). rewrite elem_of_app, elem_of_cons in Ht.
      specialize (Ht (or_intror (or_introl eq_refl))). lia.
    + exists d'. rewrite elem_of_app, elem_of_cons.
      repeat split; [by right; right|done..|lia].
  - split; [lia|]. intros d'. rewrite elem_of_app, list_elem_of_singleton.
    intros [Hd'| ->] Hlt.
    + exists d'. repeat split; [done..|lia].
    + simpl in Hlt. lia.
  - split; [done|]. intros d' [_ Hd']%list_elem_of_filter _.
    exists d'. repeat split; [done..|lia].
Qed.

Lemma evolves_trans (db1 db2 db3 : Db) :
  evolves db1 db2 -> evolves db2 db3 -> evolves db1 db3.
Proof.
  intros [Hn12 H12] [Hn23 H23]. split; [lia|].
  intros d3 Hd3 Hlt.
  destruct (H23 d3 Hd3) as (d2 & Hd2 & Hid2 & Hc2 & Hl2); [lia|].
  destruct (H12 d2 Hd2) as (d1 & Hd1 & Hid1 & Hc1 & Hl1); [lia|].
  exists d1. repeat split; [done|congruence|congruence|lia].
Qed.

Lemma evolves_refl (db : Db) : evolves db db.
Proof.
  split; [done|]. intros d Hd _. exists d. repeat split; [done..|lia].
Qed.

Lemma same_id_same_row (db : Db) (d d' : Doc) :
  wf db -> d ∈ sessions db -> d' ∈ sessions db -> _id d = _id d' -> d = d'.
Proof.
  intros [Hnd _]. revert Hnd. generalize (sessions db) as rows.
  induction rows as [|r rows IH]; [by intros _ ?%elem_of_nil|].
  rewrite fmap_cons, NoDup_cons, !elem_of_cons.
  intros [Hr Hnd] [->|Hd] [->|Hd'] Hid; [done| | |by apply IH].
  - exfalso. apply Hr. rewrite Hid. by apply list_elem_of_fmap_2.
  - exfalso. apply Hr. rewrite <- Hid. by apply list_elem_of_fmap_2.
Qed.

Lemma run_app (h1 h2 : list (Z * Call)) (db : Db) :
  run (h1 ++ h2) db = run h2 (run h1 db).
Proof.
  revert db. induction h1 as [|[now c] h1 IH]; intros db; [done|]. apply IH.
Qed.

Lemma chronological_app (t0 : Z) (h1 h2 : list (Z * Call)) :
  chronological t0 (h1 ++ h2) <->
  chronological t0 h1 /\ chronological (end_time t0 h1) h2.
Proof.
  revert t0. induction h1 as [|[now c] h1 IH]; intros t0; simpl; [tauto|].
  rewrite IH. tauto.
Qed.

Lemma run_invariants (history : list (Z * Call)) :
  forall (t0 : Z) (db : Db),
    chronological t0 history -> wf db -> timely t0 db ->
    wf (run history db) /\
    timely (end_time t0 history) (run history db) /\
    evolves db (run history db).
Proof.
  induction history as [|[now c] history IH]; intros t0 db Hchr Hwf Ht.
  - simpl. split; [done|]. split; [done|]. apply evolves_refl.
  - destruct Hchr as [Hnow Hchr]. cbn [run end_time].
    pose proof (exec_transition now c db Hwf) as Hstep.
    destruct (IH now (exec now c db) Hchr) as (Hwf' & Ht' & Hev').
    + by eapply transition_wf.
    + by eapply transition_timely.
    + split; [done|]. split; [done|].
      eapply evolves_trans; [|exact Hev']. by eapply transition_evolves.
Qed.

Lemma timely_empty (t0 : Z) : timely t0 empty_db.
Proof. by intros d ?%elem_of_nil. Qed.

Lemma run_unique (history : list (Z * Call)) (db : Db) :
  wf db -> unique_anonymousId db ->
  wf (run history db) /\ unique_anonymousId (run history db).
Proof.
  revert db. induction history as [|[now c] history IH]; intros db Hwf Hu; [done|].
  cbn [run]. pose proof (exec_transition now c db Hwf) as Hstep.
  apply IH; [by eapply transition_wf | by eapply transition_unique].
Qed.

(** C7. Along every history of mutations made at non-decreasing times,
    starting from the empty store: in every state reached each session has
    [createdAt <= lastActive]; and a session (a row, by its id) seen in
    one state and again in a later one has the same [createdAt] and a
    [lastActive] that is no smaller. *)
Theorem timestamps_along_history (t0 : Z) (before after : list (Z * Call)) :
  chronological t0 (before ++ after) ->
  (forall d, d ∈ sessions (run before empty_db) -> createdAt d <= lastActive d) /\
  (forall d1 d2,
     d1 ∈ sessions (run before empty_db) ->
     d2 ∈ sessions (run (before ++ after) empty_db) ->
     _id d1 = _id d2 ->
     createdAt d2 = createdAt d1 /\ lastActive d1 <= lastActive d2).
Proof.
  intros [Hbefore Hafter]%chronological_app.
  destruct (run_invariants before t0 empty_db Hbefore wf_empty (timely_empty t0))
    as (Hwf1 & Ht1 & _).
  destruct (run_invariants after _ _ Hafter Hwf1 Ht1) as (_ & _ & [_ Hev]).
  split; [intros d Hd; by apply (Ht1 d Hd)|].
  intros d1 d2 Hd1 Hd2 Hid. rewrite run_app in Hd2.
  destruct (Hev d2 Hd2) as (d & Hd & Hid' & Hc & Hl).
  - destruct Hwf1 as [_ Hlt]. rewrite Forall_forall in Hlt.
    rewrite <- Hid. by apply Hlt.
  - assert (d = d1) as -> by (eapply same_id_same_row; [done..|congruence]).
    done.
Qed.

Lemma timestamps_along_history_witness :
  chronological 0
    ([(1000, CallTrackSession "abc")] ++
     [(2000, CallTrackUserAction "abc" "click" None None);
      (2000, CallCleanupOldSessions (Some 0));
      (3000, CallTrackSession "abc")]) /\
  createdAt (touch 3000 (scenario_session 1000 2000 "abc" "click"))
  = createdAt (fresh_session 0%nat "abc" 1000) /\
  lastActive (fresh_session 0%nat "abc" 1000)
  <= lastActive (touch 3000 (scenario_session 1000 2000 "abc" "click")).
Proof.
  assert (Hchr : chronological 0
            ([(1000, CallTrackSession "abc")] ++
             [(2000, CallTrackUserAction "abc" "click" None None);
              (2000, CallCleanupOldSessions (Some 0));
              (3000, CallTrackSession "abc")])) by (simpl; lia).
  split; [exact Hchr|].
  apply (timestamps_along_history 0 _ _ Hchr); [| |reflexivity].
  - vm_compute. left.
  - vm_compute. left.
Defined.

End Histories.

(** ** Concurrent [trackSession] calls *)

Section Concurrency.

Import Occ.

Lemma trackSession_split (anon : string) (now : Z) :
  trackSession anon now
  = bind (first_by_anonymous_id anon) (trackSession_resume anon now).
Proof. reflexivity. Qed.

Lemma conflict_none (anon : string) (cts : nat) (log : list (nat * string)) :
  Forall (fun e => (fst e <= cts)%nat) log -> conflict anon cts log = false.
Proof.
  induction 1 as [|e log He _ IH]; [done|]. simpl.
  rewrite IH, orb_false_r. apply andb_false_intro1, Nat.ltb_ge. lia.
Qed.

Lemma conflict_after_commit (anon : string) (ts cts : nat) (log : list (nat * string)) :
  (ts <= cts)%nat -> conflict anon ts ((S cts, anon) :: log) = true.
Proof.
  intros Hts. simpl. rewrite bool_decide_eq_true_2 by done.
  replace (ts <? S cts)%nat with true; [done|].
  symmetry. apply Nat.ltb_lt. lia.
Qed.

Lemma session_of_append (anon : string) (db : Db) (now : Z) :
  session_of anon db = None ->
  session_of anon
    {| sessions := sessions db ++ [fresh_session (next_id db) anon now];
       next_id := S (next_id db) |}
  = Some (fresh_session (next_id db) anon now).
Proof.
  rewrite session_of_None. intros Hnone.
  replace (sessions db ++ [fresh_session (next_id db) anon now])
    with (sessions db ++ fresh_session (next_id db) anon now :: []) by done.
  apply session_of_middle; [|done].
  apply Forall_forall. exact Hnone.
Qed.

Lemma begin_ok (anon : string) (db : Db) (cts : nat)
    (log : list (nat * string)) (now : Z) :
  Forall (fun e => (fst e <= cts)%nat) log ->
  txn_ok anon db cts log (Running cts now (session_of anon db)).
Proof. intros Hlog. split; [done|]. done. Qed.

Lemma commit_ok (anon : string) (db : Db) (cts : nat)
    (log : list (nat * string)) (ts : nat) (now : Z) (existing : option Doc) :
  wf db ->
  unique_anonymousId db ->
  txn_ok anon db cts log (Running ts now existing) ->
  conflict anon ts log = false ->
  exists ref db',
    trackSession_resume anon now existing db = Ok (ref, db') /\
    wf db' /\
    unique_anonymousId db' /\
    txn_ok anon db' (S cts) ((S cts, anon) :: log) (Committed ref) /\
    forall t, txn_ok anon db cts log t ->
              txn_ok anon db' (S cts) ((S cts, anon) :: log) t.
Proof.
  intros Hwf Hu [Hts Hread] Hfree. specialize (Hread Hfree). subst existing.
  assert (Hstep : transition now db (exec now (CallTrackSession anon) db))
    by by apply exec_transition.
  cbn [exec] in Hstep. unfold mutation in Hstep. rewrite trackSession_split in Hstep.
  unfold bind at 1, first_by_anonymous_id in Hstep. fold (session_of anon db) in Hstep.
  destruct (session_of anon db) as [e|] eqn:He.
  - destruct (session_of_Some _ _ _ He) as (Hanon & l1 & l2 & Hl & Hl1).
    pose proof (trackSession_found db anon now e l1 l2 Hwf He Hl) as Hrun.
    rewrite trackSession_split in Hrun.
    unfold bind at 1, first_by_anonymous_id in Hrun.
    fold (session_of anon db) in Hrun. rewrite He in Hrun.
    rewrite Hrun in Hstep |- *. cbn [snd] in Hstep.
    assert (Hfound : session_of anon
                       {| sessions := l1 ++ touch now e :: l2; next_id := next_id db |}
                     = Some (touch now e)) by by apply session_of_middle.
    eexists _, _. split; [done|].
    split; [by eapply transition_wf|]. split; [by eapply transition_unique|].
    split; [by exists (touch now e)|].
    intros [|ts' now' ex'|ref|err]; simpl; [done| | |done].
    + intros [Hts' _]. split; [lia|].
      rewrite bool_decide_eq_true_2 by done.
      replace (ts' <? S cts)%nat with true by (symmetry; apply Nat.ltb_lt; lia).
      done.
    + intros (r & Hr & Hid). exists (touch now e). split; [done|].
      rewrite He in Hr. by injection Hr as <-.
  - cbn [trackSession_resume] in *. unfold db_insert in *.
    change {| _id := next_id db; anonymousId := anon; createdAt := now;
              lastActive := now; actions := [] |}
      with (fresh_session (next_id db) anon now) in *.
    cbn [new_anonymousId new_createdAt new_lastActive new_actions] in *.
    cbn [snd] in Hstep.
    eexists _, _. split; [done|].
    split; [by eapply transition_wf|]. split; [by eapply transition_unique|].
    split; [eexists; split; [by apply session_of_append|done]|].
    intros [|ts' now' ex'|ref|err]; simpl; [done| | |done].
    + intros [Hts' _]. split; [lia|].
      rewrite bool_decide_eq_true_2 by done.
      replace (ts' <? S cts)%nat with true by (symmetry; apply Nat.ltb_lt; lia).
      done.
    + intros (r & Hr & _). by rewrite He in Hr.
Qed.

Lemma log_after_commit (anon : string) (cts : nat) (log : list (nat * string)) :
  Forall (fun e => (fst e <= cts)%nat) log ->
  Forall (fun e => (fst e <= S cts)%nat) ((S cts, anon) :: log).
Proof.
  intros Hlog. apply Forall_cons. split; [simpl; lia|].
  eapply Forall_impl; [exact Hlog|]. simpl. intros; lia.
Qed.

Lemma step_consistent (anon : string) (s : Server) (e : Event) :
  consistent anon s -> consistent anon (step anon s e).
Proof.
  intros Hs. pose proof Hs as (Hwf & Hu & Hlog & HA & HB).
  destruct e as [[] now|[]]; unfold step, txn_of.
  - destruct (txnA s) eqn:HtA; try exact Hs.
    unfold first_by_anonymous_id. fold (session_of anon (db s)).
    unfold consistent, set_txn. cbn [db commit_ts write_log txnA txnB].
    do 3 (split; [done|]). split; [by apply begin_ok|done].
  - destruct (txnB s) eqn:HtB; try exact Hs.
    unfold first_by_anonymous_id. fold (session_of anon (db s)).
    unfold consistent, set_txn. cbn [db commit_ts write_log txnA txnB].
    do 4 (split; [done|]). by apply begin_ok.
  - destruct (txnA s) as [|ts now ex|ref|err] eqn:HtA; try exact Hs.
    destruct (conflict anon ts (write_log s)) eqn:Hc.
    + unfold consistent, set_txn. cbn [db commit_ts write_log txnA txnB].
      by do 4 (split; [done|]).
    + destruct (commit_ok anon (db s) (commit_ts s) (write_log s) ts now ex
                  Hwf Hu HA Hc) as (ref & db' & -> & Hwf' & Hu' & Hdone & Hothers).
      unfold consistent, set_txn. cbn [db commit_ts write_log txnA txnB].
      split; [done|]. split; [done|]. split; [by apply log_after_commit|].
      split; [done|]. by apply Hothers.
  - destruct (txnB s) as [|ts now ex|ref|err] eqn:HtB; try exact Hs.
    destruct (conflict anon ts (write_log s)) eqn:Hc.
    + unfold consistent, set_txn. cbn [db commit_ts write_log txnA txnB].
      by do 4 (split; [done|]).
    + destruct (commit_ok anon (db s) (commit_ts s) (write_log s) ts now ex
                  Hwf Hu HB Hc) as (ref & db' & -> & Hwf' & Hu' & Hdone & Hothers).
      unfold consistent, set_txn. cbn [db commit_ts write_log txnA txnB].
      split; [done|]. split; [done|]. split; [by apply log_after_commit|].
      split; [by apply Hothers|done].
Qed.

Lemma schedule_consistent (anon : string) (evs : list Event) (s : Server) :
  consistent anon s -> consistent anon (schedule anon evs s).
Proof.
  revert s. induction evs as [|e evs IH]; intros s Hs; [done|].
  apply IH. by apply step_consistent.
Qed.

Lemma start_consistent (anon : string) (d : Db) :
  wf d -> unique_anonymousId d -> consistent anon (start d).
Proof.
  intros Hwf Hu. unfold consistent, start. cbn [db commit_ts write_log txnA txnB].
  split; [done|]. split; [done|]. split; [constructor|]. by split.
Qed.

Lemma rows_of_unique (anon : string) (d : Db) :
  unique_anonymousId d -> (length (rows_of anon d) <= 1)%nat.
Proof.
  unfold unique_anonymousId, rows_of. generalize (sessions d) as rows.
  induction rows as [|r rows IH]; [simpl; lia|].
  rewrite fmap_cons, NoDup_cons. intros [Hr Hnd].
  destruct (decide (anonymousId r = anon)) as [Ha|Ha].
  - rewrite filter_cons_True by done. simpl.
    assert (Hnil : filter (fun d => anonymousId d = anon) rows = []).
    { apply elem_of_nil_inv. intros x [Hx Hin]%list_elem_of_filter.
      apply Hr. rewrite Ha, <- Hx. by apply list_elem_of_fmap_2. }
    rewrite Hnil. simpl. lia.
  - rewrite filter_cons_False by done. by apply IH.
Qed.

Lemma rows_of_session (anon : string) (d : Db) (r : Doc) :
  unique_anonymousId d -> session_of anon d = Some r -> rows_of anon d = [r].
Proof.
  intros Hu Hr. pose proof (rows_of_unique anon d Hu) as Hlen.
  destruct (session_of_Some _ _ _ Hr) as (Hanon & l1 & l2 & Hl & _).
  assert (Hin : r ∈ rows_of anon d).
  { unfold rows_of. apply list_elem_of_filter. split; [done|].
    rewrite Hl, elem_of_app, elem_of_cons. by right; left. }
  destruct (rows_of anon d) as [|x [|y rest]]; simpl in Hlen; [|  |lia].
  - by apply elem_of_nil in Hin.
  - by apply list_elem_of_singleton in Hin as ->.
Qed.

Lemma step_other (anon : string) (s : Server) (e : Event) (c : Client) :
  c <> client_of e -> txn_of c (step anon s e) = txn_of c s.
Proof.
  intros Hc. destruct e as [c' now|c']; simpl in Hc; unfold step.
  - destruct (txn_of c' s); try done.
    destruct (first_by_anonymous_id anon (db s)) as [[ex ?]|err];
      by destruct c, c'.
  - destruct (txn_of c' s) as [|ts now ex|ref|err]; try done.
    destruct (conflict anon ts (write_log s)); [by destruct c, c'|].
    destruct (trackSession_resume anon now ex (db s)) as [[ref db']|err];
      by destruct c, c'.
Qed.

Lemma step_committed (anon : string) (s : Server) (e : Event) (c : Client) (ref : Id) :
  txn_of c s = Committed ref -> txn_of c (step anon s e) = Committed ref.
Proof.
  intros Hc. destruct (decide (c = client_of e)) as [->|Hne].
  - destruct e as [c' now|c']; simpl in Hc; unfold step; by rewrite Hc.
  - by rewrite step_other.
Qed.

Lemma step_begin_idle (anon : string) (s : Server) (c : Client) (now : Z) :
  txn_of c s = Idle ->
  txn_of c (step anon s (Begin c now))
  = Running (commit_ts s) now (session_of anon (db s)) /\
  commit_ts (step anon s (Begin c now)) = commit_ts s.
Proof.
  intros Hc. unfold step. rewrite Hc. unfold first_by_anonymous_id.
  fold (session_of anon (db s)). by destruct c.
Qed.

Lemma step_commit_running (anon : string) (s : Server) (c : Client)
    (ts : nat) (now : Z) (existing : option Doc) :
  consistent anon s ->
  txn_of c s = Running ts now existing ->
  (conflict anon ts (write_log s) = true /\
   txn_of c (step anon s (Commit c)) = Idle) \/
  (conflict anon ts (write_log s) = false /\
   exists ref, txn_of c (step anon s (Commit c)) = Committed ref).
Proof.
  intros (Hwf & Hu & Hlog & HA & HB) Hc. unfold step. rewrite Hc.
  destruct (conflict anon ts (write_log s)) eqn:Hconf.
  - left. by destruct c.
  - right. split; [done|].
    assert (Hok : txn_ok anon (db s) (commit_ts s) (write_log s)
                    (Running ts now existing)).
    { destruct c; simpl in Hc; by rewrite <- Hc. }
    destruct (commit_ok anon (db s) (commit_ts s) (write_log s) ts now existing
                Hwf Hu Hok Hconf) as (ref & db' & -> & _).
    exists ref. by destruct c.
Qed.

Lemma settle (anon : string) (s : Server) (c : Client) (now : Z) :
  consistent anon s ->
  exists ref,
    txn_of c (schedule anon [Commit c; Begin c now; Commit c] s) = Committed ref.
Proof.
  intros Hs. unfold schedule. cbn [fold_left].
  assert (Hidle : forall s0, consistent anon s0 -> txn_of c s0 = Idle ->
            exists ref,
              txn_of c (step anon (step anon s0 (Begin c now)) (Commit c))
              = Committed ref).
  { intros s0 Hs0 Hc0.
    destruct (step_begin_idle anon s0 c now Hc0) as [Hrun Hcts].
    pose proof (step_consistent anon s0 (Begin c now) Hs0) as Hs1.
    destruct (step_commit_running anon _ c _ _ _ Hs1 Hrun)
      as [[Hconf _]|[_ Hdone]]; [|done].
    destruct Hs1 as (_ & _ & Hlog & _). rewrite <- Hcts in Hconf.
    by rewrite conflict_none in Hconf. }
  destruct (txn_of c s) as [|ts now' ex|ref|err] eqn:Hc.
  - assert (Hnop : step anon s (Commit c) = s) by (unfold step; by rewrite Hc).
    rewrite Hnop. by apply Hidle.
  - destruct (step_commit_running anon s c ts now' ex Hs Hc)
      as [[_ Haborted]|[_ [ref Hdone]]].
    + apply Hidle; [by apply step_consistent|done].
    + exists ref. by do 2 apply step_committed.
  - exists ref. by do 3 apply step_committed.
  - destruct Hs as (_ & _ & _ & HA & HB). destruct c; simpl in Hc.
    + by rewrite Hc in HA.
    + by rewrite Hc in HB.
Qed.

Lemma finish_commits_both (anon : string) (s : Server) (now : Z) :
  consistent anon s ->
  exists refA refB,
    txnA (schedule anon (finish now) s) = Committed refA /\
    txnB (schedule anon (finish now) s) = Committed refB.
Proof.
  intros Hs.
  change (finish now)
    with ([Commit ClientA; Begin ClientA now; Commit ClientA] ++
          [Commit ClientB; Begin ClientB now; Commit ClientB]).
  unfold schedule. rewrite fold_left_app.
  fold (schedule anon [Commit ClientA; Begin ClientA now; Commit ClientA] s).
  destruct (settle anon s ClientA now Hs) as (refA & HA).
  set (s1 := schedule anon _ s) in *.
  assert (Hs1 : consistent anon s1) by by apply schedule_consistent.
  destruct (settle anon s1 ClientB now Hs1) as (refB & HB).
  exists refA, refB. split; [|exact HB].
  cbn [fold_left]. by do 3 apply (step_committed anon _ _ ClientA).
Qed.

Lemma unique_empty : unique_anonymousId empty_db.
Proof. apply NoDup_nil_2. Qed.

(** C1. In every store reached from the empty one by any history of
    mutations, no identifier has more than one session.  And when two
    [trackSession] calls for one identifier are in flight at once on a
    store with that property, inside the transaction boundary the spec
    describes for the [mutation] wrapper (module [Occ], modelled from the
    spec), under any interleaving of their starts and
    commit attempts: no identifier ever has more than one session, neither
    call fails, both can always be brought to commit, and once both have
    committed the identifier has exactly one row, whose id both calls
    returned. *)
Theorem one_session_per_anonymousId :
  (forall history anon,
     (length (rows_of anon (run history empty_db)) <= 1)%nat) /\
  (forall d anon evs,
     wf d ->
     unique_anonymousId d ->
     (forall a, (length (rows_of a (db (schedule anon evs (start d)))) <= 1)%nat) /\
     (forall err, txnA (schedule anon evs (start d)) <> Failed err /\
                  txnB (schedule anon evs (start d)) <> Failed err) /\
     (forall now, exists refA refB,
        txnA (schedule anon (evs ++ finish now) (start d)) = Committed refA /\
        txnB (schedule anon (evs ++ finish now) (start d)) = Committed refB) /\
     (forall refA refB,
        txnA (schedule anon evs (start d)) = Committed refA ->
        txnB (schedule anon evs (start d)) = Committed refB ->
        exists r, rows_of anon (db (schedule anon evs (start d))) = [r] /\
                  refA = _id r /\ refB = _id r)).
Proof.
  split.
  - intros history anon. apply rows_of_unique.
    by apply run_unique; [apply wf_empty | apply unique_empty].
  - intros d anon evs Hwf Hu.
    pose proof (schedule_consistent anon evs (start d) (start_consistent anon d Hwf Hu))
      as Hs.
    pose proof Hs as (_ & Hu' & _ & HA & HB).
    split; [intros a; by apply rows_of_unique|]. split; [|split].
    + intros err. split; intros Hf.
      * by rewrite Hf in HA.
      * by rewrite Hf in HB.
    + intros now. unfold schedule at 1 2. rewrite fold_left_app.
      by apply finish_commits_both.
    + intros refA refB HcA HcB. rewrite HcA in HA. rewrite HcB in HB.
      destruct HA as (r & Hr & <-). destruct HB as (r' & Hr' & <-).
      exists r. split; [by apply rows_of_session|]. split; [done|]. congruence.
Qed.

Lemma one_session_per_anonymousId_witness :
  wf empty_db /\
  unique_anonymousId empty_db /\
  txnA (schedule "abc" race (start empty_db)) = Committed 0%nat /\
  txnB (schedule "abc" race (start empty_db)) = Committed 0%nat /\
  exists r, rows_of "abc" (db (schedule "abc" race (start empty_db))) = [r] /\
            _id r = 0%nat.
Proof.
  assert (Hwf : wf empty_db) by by_computation.
  assert (Hu : unique_anonymousId empty_db) by apply NoDup_nil_2.
  split; [exact Hwf|]. split; [exact Hu|].
  split; [reflexivity|]. split; [reflexivity|].
  destruct one_session_per_anonymousId as [_ H].
  destruct (H empty_db "abc" race Hwf Hu) as (_ & _ & _ & Hboth).
  destruct (Hboth 0%nat 0%nat eq_refl eq_refl) as (r & Hr & Hid & _).
  exists r. by split.
Defined.

(** Without the conflict check at commit the same race leaves two rows
    for the identifier: the check is what the property rests on. *)
Remark unchecked_race_duplicates :
  length (rows_of "abc"
            (db (schedule_unchecked "abc"
                   [Begin ClientA 1000; Begin ClientB 1001;
                    Commit ClientA; Commit ClientB]
                   (start empty_db))))
  = 2%nat.
Proof. reflexivity. Qed.

End Concurrency.

(** * Further properties of the session store *)

Section Mutations.

Lemma mutation_trackSession_cases (db : Db) (anon : string) (now : Z) :
  wf db ->
  (exists e l1 l2,
     session_of anon db = Some e /\
     anonymousId e = anon /\
     sessions db = l1 ++ e :: l2 /\
     Forall (fun d => anonymousId d <> anon) l1 /\
     mutation (trackSession anon now) db
     = (Ok (_id e), {| sessions := l1 ++ touch now e :: l2; next_id := next_id db |})) \/
  (session_of anon db = None /\
   mutation (trackSession anon now) db
   = (Ok (next_id db),
      {| sessions := sessions db ++ [fresh_session (next_id db) anon now];
         next_id := S (next_id db) |})).
Proof.
  intros Hwf. destruct (session_of anon db) as [e|] eqn:He.
  - left. destruct (session_of_Some _ _ _ He) as (Hanon & l1 & l2 & Hl & Hl1).
    exists e, l1, l2. repeat (split; [done|]).
    unfold mutation. by erewrite trackSession_found.
  - right. split; [done|]. unfold mutation. by rewrite trackSession_new.
Qed.

Lemma mutation_trackUserAction_cases (db : Db) (anon action : string)
    (rid : option string) (meta : option Value) (now : Z) :
  wf db ->
  (exists s l1 l2,
     session_of anon db = Some s /\
     anonymousId s = anon /\
     sessions db = l1 ++ s :: l2 /\
     Forall (fun d => anonymousId d <> anon) l1 /\
     mutation (trackUserAction anon action rid meta now) db
     = (Ok tt, {| sessions := l1 ++ record_action (entry action now rid meta) s :: l2;
                  next_id := next_id db |})) \/
  (session_of anon db = None /\
   mutation (trackUserAction anon action rid meta now) db
   = (Throw (MkError "Session not found"), db)).
Proof.
  intros Hwf. destruct (session_of anon db) as [s|] eqn:Hs.
  - left. destruct (session_of_Some _ _ _ Hs) as (Hanon & l1 & l2 & Hl & Hl1).
    exists s, l1, l2. repeat (split; [done|]).
    unfold mutation. by erewrite trackUserAction_found.
  - right. split; [done|]. unfold mutation. by rewrite trackUserAction_missing.
Qed.

Lemma exec_wf (now : Z) (c : Call) (db : Db) : wf db -> wf (exec now c db).
Proof. intros Hwf. eapply transition_wf; [by apply exec_transition|done]. Qed.

Lemma others_middle (anon : string) (l1 l2 : list Doc) (e e' : Doc) (n n' : Id) :
  anonymousId e = anon -> anonymousId e' = anon ->
  others anon {| sessions := l1 ++ e' :: l2; next_id := n' |}
  = others anon {| sessions := l1 ++ e :: l2; next_id := n |}.
Proof.
  intros He He'. unfold others. cbn [sessions].
  rewrite !filter_app, !filter_cons_False; [done|by intros []..].
Qed.

End Mutations.

Section Heartbeats.

Lemma touch_same (s : Doc) : touch (lastActive s) s = s.
Proof. by destruct s. Qed.

Lemma touch_touch (t t' : Z) (s : Doc) : touch t' (touch t s) = touch t' s.
Proof. done. Qed.

Lemma ids_middle (l1 l2 : list Doc) (e e' : Doc) :
  _id e' = _id e -> _id <$> (l1 ++ e' :: l2) = _id <$> (l1 ++ e :: l2).
Proof. intros Hid. by rewrite !fmap_app, !fmap_cons, Hid. Qed.

Lemma run_heartbeats_existing (anon : string) (times : list Z) :
  forall (db : Db) (s : Doc),
    wf db ->
    session_of anon db = Some s ->
    wf (run (heartbeats anon times) db) /\
    session_of anon (run (heartbeats anon times) db)
    = Some (touch (default (lastActive s) (last times)) s) /\
    _id <$> sessions (run (heartbeats anon times) db) = _id <$> sessions db /\
    next_id (run (heartbeats anon times) db) = next_id db /\
    others anon (run (heartbeats anon times) db) = others anon db.
Proof.
  induction times as [|t times IH]; intros db s Hwf Hs.
  - simpl. by rewrite touch_same.
  - unfold heartbeats. rewrite fmap_cons. cbn [run].
    pose proof (exec_wf t (CallTrackSession anon) db Hwf) as Hwf'.
    cbn [exec] in *.
    destruct (mutation_trackSession_cases db anon t Hwf)
      as [(e & l1 & l2 & He & Hanon & Hl & Hl1 & Hm)|[Hnone _]];
      [|by rewrite Hnone in Hs].
    rewrite He in Hs. injection Hs as ->.
    rewrite Hm in *. cbn [snd] in *.
    destruct (IH _ (touch t s) Hwf') as (Hwf'' & Hs'' & Hids & Hnext & Hothers).
    { by apply session_of_middle. }
    fold (heartbeats anon times).
    split; [done|]. split; [|split; [|split]].
    + rewrite Hs''. f_equal. rewrite last_cons.
      by destruct (last times).
    + rewrite Hids. cbn [sessions]. rewrite Hl. by apply ids_middle.
    + by rewrite Hnext.
    + rewrite Hothers.
      rewrite (others_middle anon l1 l2 s (touch t s) (next_id db) (next_id db))
        by done.
      unfold others. cbn [sessions]. by rewrite Hl.
Qed.

Lemma run_heartbeats (db : Db) (anon : string) (t : Z) (times : list Z) :
  wf db ->
  others anon (run (heartbeats anon (t :: times)) db) = others anon db /\
  match session_of anon db with
  | Some s =>
      session_of anon (run (heartbeats anon (t :: times)) db)
      = Some (touch (default t (last times)) s) /\
      _id <$> sessions (run (heartbeats anon (t :: times)) db) = _id <$> sessions db
  | None =>
      session_of anon (run (heartbeats anon (t :: times)) db)
      = Some (touch (default t (last times)) (fresh_session (next_id db) anon t)) /\
      _id <$> sessions (run (heartbeats anon (t :: times)) db)
      = (_id <$> sessions db) ++ [next_id db]
  end.
Proof.
  intros Hwf.
  destruct (session_of anon db) as [s|] eqn:Hs.
  - destruct (run_heartbeats_existing anon (t :: times) db s Hwf Hs)
      as (_ & Hs' & Hids & _ & Hothers).
    split; [done|]. split; [|done].
    rewrite Hs'. f_equal. rewrite last_cons. by destruct (last times).
  - unfold heartbeats. rewrite fmap_cons. cbn [run exec].
    fold (heartbeats anon times).
    pose proof (exec_wf t (CallTrackSession anon) db Hwf) as Hwf'.
    cbn [exec] in Hwf'.
    unfold mutation in *. rewrite trackSession_new in * by done. cbn [snd] in *.
    destruct (run_heartbeats_existing anon times _
                (fresh_session (next_id db) anon t) Hwf')
      as (_ & Hs' & Hids & _ & Hothers).
    { by apply session_of_append. }
    split; [|split].
    + rewrite Hothers. unfold others. cbn [sessions].
      rewrite filter_app, filter_cons_False, filter_nil, app_nil_r; [done|].
      by intros [].
    + done.
    + rewrite Hids. cbn [sessions]. by rewrite fmap_app.
Qed.

(** X1. A run of heartbeats for one identifier, at any times, leaves one
    session for it: the session it had, or one created by the first
    heartbeat, with [lastActive] the time of the last heartbeat and
    everything else as it was; the sessions of other identifiers are not
    touched, and at most one document id is added. *)
Theorem heartbeats_keep_one_session (db : Db) (anon : string) (t : Z) (times : list Z) :
  wf db ->
  others anon (run (heartbeats anon (t :: times)) db) = others anon db /\
  match session_of anon db with
  | Some s =>
      session_of anon (run (heartbeats anon (t :: times)) db)
      = Some (touch (default t (last times)) s) /\
      _id <$> sessions (run (heartbeats anon (t :: times)) db) = _id <$> sessions db
  | None =>
      session_of anon (run (heartbeats anon (t :: times)) db)
      = Some (touch (default t (last times)) (fresh_session (next_id db) anon t)) /\
      _id <$> sessions (run (heartbeats anon (t :: times)) db)
      = (_id <$> sessions db) ++ [next_id db]
  end.
Proof. apply run_heartbeats. Qed.

End Heartbeats.

Section Frame.

Lemma heartbeats_keep_one_session_witness :
  wf (scenario 1000 2000 "abc" "click") /\
  session_of "abc" (run (heartbeats "abc" [3000; 4000; 5000])
                      (scenario 1000 2000 "abc" "click"))
  = Some (touch 5000 (scenario_session 1000 2000 "abc" "click")) /\
  session_of "xyz" (run (heartbeats "xyz" [3000; 4000; 5000])
                      (scenario 1000 2000 "abc" "click"))
  = Some (touch 5000 (fresh_session 1%nat "xyz" 3000)).
Proof.
  assert (Hwf : wf (scenario 1000 2000 "abc" "click")) by by_computation.
  split; [exact Hwf|]. split.
  - pose proof (heartbeats_keep_one_session _ "abc" 3000 [4000; 5000] Hwf) as [_ H].
    change (session_of "abc" (scenario 1000 2000 "abc" "click"))
      with (Some (scenario_session 1000 2000 "abc" "click")) in H.
    apply H.
  - pose proof (heartbeats_keep_one_session _ "xyz" 3000 [4000; 5000] Hwf) as [_ H].
    change (session_of "xyz" (scenario 1000 2000 "abc" "click"))
      with (@None Doc) in H.
    apply H.
Defined.

(** X2. A [trackSession] or [trackUserAction] call for one identifier
    leaves the sessions of every other identifier exactly as they were,
    in the same order. *)
Theorem call_leaves_other_identifiers (db : Db) (anon : string) (now : Z) (c : Call) :
  wf db -> targets anon c -> others anon (exec now c db) = others anon db.
Proof.
  intros Hwf Ht. destruct c as [a|a action rid meta|d]; simpl in Ht; [subst a..|done];
    cbn [exec].
  - destruct (mutation_trackSession_cases db anon now Hwf)
      as [(e & l1 & l2 & _ & Hanon & Hl & _ & ->)|[_ ->]]; cbn [snd].
    + rewrite (others_middle anon l1 l2 e (touch now e) (next_id db) (next_id db))
        by done.
      unfold others. cbn [sessions]. by rewrite Hl.
    + unfold others. cbn [sessions].
      rewrite filter_app, filter_cons_False, filter_nil, app_nil_r; [done|].
      by intros [].
  - destruct (mutation_trackUserAction_cases db anon action rid meta now Hwf)
      as [(s & l1 & l2 & _ & Hanon & Hl & _ & ->)|[_ ->]]; cbn [snd]; [|done].
    rewrite (others_middle anon l1 l2 s
               (record_action (entry action now rid meta) s)
               (next_id db) (next_id db)) by done.
    unfold others. cbn [sessions]. by rewrite Hl.
Qed.

Lemma call_leaves_other_identifiers_witness :
  wf (run (heartbeats "xyz" [3000]) (scenario 1000 2000 "abc" "click")) /\
  targets "xyz" (CallTrackUserAction "xyz" "scroll" None None) /\
  others "xyz" (exec 4000 (CallTrackUserAction "xyz" "scroll" None None)
                  (run (heartbeats "xyz" [3000]) (scenario 1000 2000 "abc" "click")))
  = [scenario_session 1000 2000 "abc" "click"].
Proof.
  assert (Hwf : wf (run (heartbeats "xyz" [3000]) (scenario 1000 2000 "abc" "click")))
    by by_computation.
  split; [exact Hwf|]. split; [reflexivity|].
  rewrite (call_leaves_other_identifiers _ "xyz" 4000
             (CallTrackUserAction "xyz" "scroll" None None) Hwf eq_refl).
  reflexivity.
Defined.

End Frame.

Section Refresh.

Lemma exec_targets_refreshes (db : Db) (anon : string) (now : Z) (c : Call) (s : Doc) :
  wf db ->
  targets anon c ->
  session_of anon (exec now c db) = Some s ->
  lastActive s = now /\ s ∈ sessions (exec now c db).
Proof.
  intros Hwf Ht. destruct c as [a|a action rid meta|d]; simpl in Ht; [subst a..|done];
    cbn [exec].
  - destruct (mutation_trackSession_cases db anon now Hwf)
      as [(e & l1 & l2 & _ & Hanon & Hl & Hl1 & ->)|[Hnone ->]]; cbn [snd].
    + rewrite session_of_middle by done. intros [= <-]. split; [done|].
      cbn [sessions]. rewrite elem_of_app, elem_of_cons. by right; left.
    + rewrite session_of_append by done. intros [= <-]. split; [done|].
      cbn [sessions]. rewrite elem_of_app, list_elem_of_singleton. by right.
  - destruct (mutation_trackUserAction_cases db anon action rid meta now Hwf)
      as [(e & l1 & l2 & _ & Hanon & Hl & Hl1 & ->)|[Hnone ->]]; cbn [snd].
    + rewrite session_of_middle by done. intros [= <-]. split; [done|].
      cbn [sessions]. rewrite elem_of_app, elem_of_cons. by right; left.
    + by rewrite Hnone.
Qed.

(** X3. Once a heartbeat or an action has gone through for an identifier
    at time [now], its session has [lastActive = now], and a
    [getActiveSessions] query made at [now'] returns it exactly when
    [now' - minutesActive * 60000 < now] (15 minutes when the argument is
    absent); at the same instant a window of 0 minutes leaves it out. *)
Theorem refreshed_session_is_active
    (db : Db) (anon : string) (now now' : Z) (c : Call) (w : option Z) (s : Doc) :
  wf db ->
  targets anon c ->
  session_of anon (exec now c db) = Some s ->
  lastActive s = now /\
  exists res,
    query (getActiveSessions w now') (exec now c db) = Ok res /\
    (s ∈ res <-> now' - default 15 w * 60000 < now).
Proof.
  intros Hwf Ht Hs.
  destruct (exec_targets_refreshes db anon now c s Hwf Ht Hs) as [Hla Hin].
  split; [done|]. eexists. split; [apply query_getActiveSessions|].
  rewrite list_elem_of_filter. split; [intros [? _]; lia|].
  intros ?. split; [lia|done].
Qed.

Lemma refreshed_session_is_active_witness :
  wf empty_db /\
  targets "abc" (CallTrackSession "abc") /\
  session_of "abc" (exec 1000 (CallTrackSession "abc") empty_db)
  = Some (fresh_session 0%nat "abc" 1000) /\
  (exists res,
     query (getActiveSessions None 900000) (exec 1000 (CallTrackSession "abc") empty_db)
     = Ok res /\
     fresh_session 0%nat "abc" 1000 ∈ res) /\
  query (getActiveSessions None 901000) (exec 1000 (CallTrackSession "abc") empty_db)
  = Ok [].
Proof.
  assert (Hwf : wf empty_db) by by_computation.
  pose proof (refreshed_session_is_active empty_db "abc" 1000 900000
                (CallTrackSession "abc") None (fresh_session 0%nat "abc" 1000)
                Hwf eq_refl eq_refl) as (_ & res & Hq & Hin).
  split; [exact Hwf|]. split; [reflexivity|]. split; [reflexivity|].
  split; [|reflexivity].
  exists res. split; [exact Hq|]. apply Hin. simpl. lia.
Defined.

(** X4. Once a heartbeat or an action has gone through for an identifier
    at time [now], a cleanup run at [now'] with [daysInactive] keeps its
    session exactly when [now' - daysInactive * 86400000 <= now]: with a
    non-negative [daysInactive] a cleanup at the same instant never
    removes the session just refreshed. *)
Theorem refreshed_session_survives_cleanup
    (db : Db) (anon : string) (now now' : Z) (c : Call) (d : option Z) (s : Doc) :
  wf db ->
  targets anon c ->
  session_of anon (exec now c db) = Some s ->
  (s ∈ sessions (exec now' (CallCleanupOldSessions d) (exec now c db)) <->
   now' - default 30 d * 86400000 <= now) /\
  (0 <= default 30 d ->
   s ∈ sessions (exec now (CallCleanupOldSessions d) (exec now c db))).
Proof.
  intros Hwf Ht Hs.
  destruct (exec_targets_refreshes db anon now c s Hwf Ht Hs) as [Hla Hin].
  pose proof (exec_wf now c db Hwf) as Hwf'.
  assert (Hkeep : forall t,
            s ∈ sessions (exec t (CallCleanupOldSessions d) (exec now c db)) <->
            t - default 30 d * 86400000 <= now).
  { intros t. cbn [exec]. rewrite mutation_cleanup by done. cbn [snd sessions].
    rewrite list_elem_of_filter. unfold stale. rewrite cutoff_of_unfold.
    split; [intros [? _]; lia|]. intros ?. split; [lia|done]. }
  split; [apply Hkeep|]. intros Hd. apply Hkeep. lia.
Qed.

Lemma refreshed_session_survives_cleanup_witness :
  wf empty_db /\
  targets "abc" (CallTrackSession "abc") /\
  0 <= default 30 (Some 0) /\
  fresh_session 0%nat "abc" 1000
  ∈ sessions (exec 1000 (CallCleanupOldSessions (Some 0))
                (exec 1000 (CallTrackSession "abc") empty_db)) /\
  sessions (exec 1001 (CallCleanupOldSessions (Some 0))
              (exec 1000 (CallTrackSession "abc") empty_db))
  = [].
Proof.
  assert (Hwf : wf empty_db) by by_computation.
  pose proof (refreshed_session_survives_cleanup empty_db "abc" 1000 1001
                (CallTrackSession "abc") (Some 0) (fresh_session 0%nat "abc" 1000)
                Hwf eq_refl eq_refl) as [_ Hsame].
  specialize (Hsame ltac:(simpl; lia)).
  split; [exact Hwf|]. split; [reflexivity|]. split; [simpl; lia|].
  split; [exact Hsame|reflexivity].
Defined.

End Refresh.

Section EvictionComposed.

Lemma unique_session (anon : string) (db : Db) (s d : Doc) :
  unique_anonymousId db ->
  session_of anon db = Some s ->
  d ∈ sessions db -> anonymousId d = anon -> d = s.
Proof.
  intros Hu Hs Hd Ha.
  assert (Hin : d ∈ rows_of anon db) by by apply list_elem_of_filter.
  rewrite (rows_of_session anon db s Hu Hs) in Hin.
  by apply list_elem_of_singleton in Hin.
Qed.

(** X5. When a cleanup removes the session of an identifier (its
    [lastActive] is below the cutoff), the identifier is unknown again:
    [trackUserAction] for it throws "Session not found" and changes
    nothing, and the next [trackSession] starts a new session under a
    document id that differs from the old one, with [createdAt] the time
    of that call and no actions. *)
Theorem evicted_session_starts_over
    (db : Db) (anon : string) (s : Doc) (d : option Z) (now : Z) :
  wf db ->
  unique_anonymousId db ->
  session_of anon db = Some s ->
  lastActive s < now - default 30 d * 86400000 ->
  session_of anon (exec now (CallCleanupOldSessions d) db) = None /\
  (forall action rid meta t,
     mutation (trackUserAction anon action rid meta t)
       (exec now (CallCleanupOldSessions d) db)
     = (Throw (MkError "Session not found"),
        exec now (CallCleanupOldSessions d) db)) /\
  (forall t,
     exists i,
       (mutation (trackSession anon t) (exec now (CallCleanupOldSessions d) db)).1
       = Ok i /\
       i <> _id s /\
       session_of anon
         (mutation (trackSession anon t) (exec now (CallCleanupOldSessions d) db)).2
       = Some (fresh_session i anon t)).
Proof.
  intros Hwf Hu Hs Hstale.
  pose proof (exec_wf now (CallCleanupOldSessions d) db Hwf) as Hwf'.
  assert (Hnone : session_of anon (exec now (CallCleanupOldSessions d) db) = None).
  { apply session_of_None. cbn [exec]. rewrite mutation_cleanup by done.
    cbn [snd sessions]. intros r [Hkeep Hr]%list_elem_of_filter Ha.
    assert (r = s) as -> by by eapply unique_session.
    apply Hkeep. unfold stale. by rewrite cutoff_of_unfold. }
  split; [done|]. split.
  - intros action rid meta t. unfold mutation at 1.
    by rewrite trackUserAction_missing.
  - intros t. exists (next_id (exec now (CallCleanupOldSessions d) db)).
    unfold mutation at 1 2. rewrite trackSession_new by done. cbn [fst snd].
    assert (Hnext : next_id (exec now (CallCleanupOldSessions d) db) = next_id db).
    { cbn [exec]. by rewrite mutation_cleanup. }
    split; [done|]. split.
    + rewrite Hnext.
      destruct (session_of_Some _ _ _ Hs) as (_ & l1 & l2 & Hl & _).
      destruct Hwf as [_ Hlt]. rewrite Forall_forall in Hlt.
      assert (_id s < next_id db)%nat; [|lia].
      apply Hlt. rewrite Hl, elem_of_app, elem_of_cons. by right; left.
    + by apply session_of_append.
Qed.

Lemma evicted_session_starts_over_witness :
  wf (scenario 1000 2000 "abc" "click") /\
  unique_anonymousId (scenario 1000 2000 "abc" "click") /\
  session_of "abc" (scenario 1000 2000 "abc" "click")
  = Some (scenario_session 1000 2000 "abc" "click") /\
  lastActive (scenario_session 1000 2000 "abc" "click") < 5000 - default 30 (Some 0) * 86400000 /\
  session_of "abc"
    (mutation (trackSession "abc" 6000)
       (exec 5000 (CallCleanupOldSessions (Some 0)) (scenario 1000 2000 "abc" "click"))).2
  = Some (fresh_session 1%nat "abc" 6000).
Proof.
  assert (Hwf : wf (scenario 1000 2000 "abc" "click")) by by_computation.
  assert (Hu : unique_anonymousId (scenario 1000 2000 "abc" "click"))
    by (apply (bool_decide_unpack _); vm_compute; reflexivity).
  assert (Hlt : lastActive (scenario_session 1000 2000 "abc" "click")
                < 5000 - default 30 (Some 0) * 86400000) by (simpl; lia).
  split; [exact Hwf|]. split; [exact Hu|]. split; [reflexivity|]. split; [exact Hlt|].
  destruct (evicted_session_starts_over _ "abc" _ (Some 0) 5000 Hwf Hu eq_refl Hlt)
    as (_ & _ & Hnew).
  destruct (Hnew 6000) as (i & Hi & _ & Hs).
  injection Hi as <-. exact Hs.
Defined.

Lemma filter_not_stale_twice (c1 c2 : Z) (rows : list Doc) :
  filter (fun d => ~ stale c2 d) (filter (fun d => ~ stale c1 d) rows)
  = filter (fun d => ~ stale (Z.max c1 c2) d) rows.
Proof.
  induction rows as [|d rows IH]; [done|].
  destruct (decide (stale c1 d)) as [H1|H1].
  - rewrite (filter_cons_False (fun d => ~ stale c1 d)) by tauto.
    rewrite (filter_cons_False (fun d => ~ stale (Z.max c1 c2) d)); [done|].
    unfold stale in *. lia.
  - rewrite (filter_cons_True (fun d => ~ stale c1 d)) by done.
    destruct (decide (stale c2 d)) as [H2|H2].
    + rewrite (filter_cons_False (fun d => ~ stale c2 d)) by tauto.
      rewrite (filter_cons_False (fun d => ~ stale (Z.max c1 c2) d)); [done|].
      unfold stale in *. lia.
    + rewrite (filter_cons_True (fun d => ~ stale c2 d)) by done.
      rewrite (filter_cons_True (fun d => ~ stale (Z.max c1 c2) d)); [by rewrite IH|].
      unfold stale in *. lia.
Qed.

(** X6. Two cleanups in a row leave the store one cleanup with the later
    of the two cutoffs leaves, in either order, and their two
    [deletedCount]s add up to the [deletedCount] of that one cleanup. *)
Theorem cleanups_compose (db : Db) (d1 d2 d : option Z) (now1 now2 now : Z) :
  wf db ->
  now - default 30 d * 86400000
  = Z.max (now1 - default 30 d1 * 86400000) (now2 - default 30 d2 * 86400000) ->
  exists obj1 db1 obj2 db2 obj n1 n2,
    mutation (cleanupOldSessions d1 now1) db = (Ok obj1, db1) /\
    mutation (cleanupOldSessions d2 now2) db1 = (Ok obj2, db2) /\
    mutation (cleanupOldSessions d now) db = (Ok obj, db2) /\
    exec now1 (CallCleanupOldSessions d1) (exec now2 (CallCleanupOldSessions d2) db)
    = db2 /\
    obj1 !! "deletedCount" = Some n1 /\
    obj2 !! "deletedCount" = Some n2 /\
    obj !! "deletedCount" = Some (n1 + n2).
Proof.
  intros Hwf Hmax. eexists _, _, _, _, _, _, _.
  split; [by apply mutation_cleanup|].
  split; [apply mutation_cleanup; by apply wf_filter|].
  cbn [sessions next_id]. rewrite filter_not_stale_twice.
  rewrite !cutoff_of_unfold, <- Hmax.
  split; [by rewrite mutation_cleanup, cutoff_of_unfold|].
  split.
  - cbn [exec]. rewrite (mutation_cleanup db d2 now2) by done. cbn [snd].
    rewrite mutation_cleanup by by apply wf_filter.
    cbn [snd sessions next_id]. rewrite filter_not_stale_twice.
    by rewrite !cutoff_of_unfold, Z.max_comm, <- Hmax.
  - split; [apply cleanup_result_deletedCount|].
    split; [apply cleanup_result_deletedCount|].
    rewrite cleanup_result_deletedCount. f_equal.
    set (c1 := now1 - _) in *. set (c2 := now2 - _) in *.
    pose proof (length_filter_split (stale c1) (sessions db)) as H1.
    pose proof (length_filter_split (stale c2)
                  (filter (fun d => ~ stale c1 d) (sessions db))) as H2.
    pose proof (length_filter_split (stale (now - default 30 d * 86400000))
                  (sessions db)) as H3.
    rewrite filter_not_stale_twice, <- Hmax in H2. lia.
Qed.

Lemma cleanups_compose_witness :
  wf (scenario 1000 2000 "abc" "click") /\
  5000 - default 30 (Some 0) * 86400000
  = Z.max (1500 - default 30 (Some 0) * 86400000) (5000 - default 30 (Some 0) * 86400000) /\
  exec 1500 (CallCleanupOldSessions (Some 0))
    (exec 5000 (CallCleanupOldSessions (Some 0)) (scenario 1000 2000 "abc" "click"))
  = exec 5000 (CallCleanupOldSessions (Some 0))
      (exec 1500 (CallCleanupOldSessions (Some 0)) (scenario 1000 2000 "abc" "click")).
Proof.
  assert (Hwf : wf (scenario 1000 2000 "abc" "click")) by by_computation.
  assert (Hmax : 5000 - default 30 (Some 0) * 86400000
                 = Z.max (1500 - default 30 (Some 0) * 86400000)
                     (5000 - default 30 (Some 0) * 86400000)) by reflexivity.
  split; [exact Hwf|]. split; [exact Hmax|].
  destruct (cleanups_compose _ (Some 0) (Some 0) (Some 0) 1500 5000 5000 Hwf Hmax)
    as (obj1 & db1 & obj2 & db2 & obj & n1 & n2 & Hm1 & Hm2 & _ & Hswap & _).
  rewrite Hswap. cbn [exec]. rewrite Hm1. cbn [snd]. by rewrite Hm2.
Defined.

End EvictionComposed.

Section QueryComposed.

Lemma filter_active_after_cleanup (cq cc : Z) (rows : list Doc) :
  cc <= cq ->
  filter (fun d => lastActive d > cq) (filter (fun d => ~ stale cc d) rows)
  = filter (fun d => lastActive d > cq) rows.
Proof.
  intros Hc. induction rows as [|d rows IH]; [done|].
  destruct (decide (stale cc d)) as [Hd|Hd].
  - rewrite (filter_cons_False (fun d => ~ stale cc d)) by tauto.
    rewrite (filter_cons_False (fun d => lastActive d > cq)); [done|].
    unfold stale in Hd. lia.
  - rewrite (filter_cons_True (fun d => ~ stale cc d)) by done.
    by rewrite !filter_cons, IH.
Qed.

(** X7. A cleanup whose cutoff is not after the cutoff of an
    active-session query does not change what the query returns: with the
    same clock, whenever the window [minutesActive * 60000] is no longer
    than the retention [daysInactive * 86400000], the sessions reported
    active are the same before and after the cleanup. *)
Theorem cleanup_keeps_active_sessions
    (db : Db) (d w : option Z) (now_c now_q : Z) :
  wf db ->
  now_c - default 30 d * 86400000 <= now_q - default 15 w * 60000 ->
  query (getActiveSessions w now_q) (exec now_c (CallCleanupOldSessions d) db)
  = query (getActiveSessions w now_q) db.
Proof.
  intros Hwf Hc. rewrite !query_getActiveSessions. cbn [exec].
  rewrite mutation_cleanup by done. cbn [snd sessions].
  by rewrite filter_active_after_cleanup by by rewrite cutoff_of_unfold.
Qed.

Lemma cleanup_keeps_active_sessions_witness :
  wf (scenario 1000 2000 "abc" "click") /\
  3000 - default 30 None * 86400000 <= 3000 - default 15 None * 60000 /\
  query (getActiveSessions None 3000)
    (exec 3000 (CallCleanupOldSessions None) (scenario 1000 2000 "abc" "click"))
  = Ok [scenario_session 1000 2000 "abc" "click"].
Proof.
  assert (Hwf : wf (scenario 1000 2000 "abc" "click")) by by_computation.
  assert (Hc : 3000 - default 30 None * 86400000 <= 3000 - default 15 None * 60000)
    by (simpl; lia).
  split; [exact Hwf|]. split; [exact Hc|].
  rewrite (cleanup_keeps_active_sessions _ None None 3000 3000 Hwf Hc).
  reflexivity.
Defined.

(** X8. The daily job of crons.ts runs the cleanup with
    [daysInactive = 14]: it keeps exactly the sessions last active at
    most 1209600000 ms (14 days) before it runs, in order, reports the
    number it removed, and never changes what [getActiveSessions] with
    its default window returns at that time. *)
Theorem cron_cleanup_retains_14_days (db : Db) (now : Z) :
  wf db ->
  exists obj db',
    cron_cleanup now db = (Ok obj, db') /\
    sessions db' = filter (fun d => now - lastActive d <= 1209600000) (sessions db) /\
    obj !! "deletedCount"
    = Some (Z.of_nat (length (sessions db)) - Z.of_nat (length (sessions db'))) /\
    query (getActiveSessions None now) db' = query (getActiveSessions None now) db.
Proof.
  intros Hwf. unfold cron_cleanup, cleanupOldSessions_internal.
  destruct (cleanup_spec db cron_daysInactive now Hwf)
    as (obj & db' & Hm & Hs & Hc & _).
  exists obj, db'. split; [done|]. split; [|split; [done|]].
  - rewrite Hs. apply list_filter_iff. intros r. simpl. lia.
  - rewrite !query_getActiveSessions, Hs. f_equal.
    apply (filter_active_after_cleanup (now - default 15 None * 60000)
             (now - default 30 cron_daysInactive * 86400000)).
    simpl. lia.
Qed.

Lemma cron_cleanup_retains_14_days_witness :
  wf (scenario 1000 2000 "abc" "click") /\
  (cron_cleanup 1209602000 (scenario 1000 2000 "abc" "click")).2
  = scenario 1000 2000 "abc" "click" /\
  sessions (cron_cleanup 1209602001 (scenario 1000 2000 "abc" "click")).2 = [].
Proof.
  assert (Hwf : wf (scenario 1000 2000 "abc" "click")) by by_computation.
  split; [exact Hwf|].
  destruct (cron_cleanup_retains_14_days _ 1209602001 Hwf) as (obj & db' & Hm & Hs & _).
  split; [reflexivity|]. rewrite Hm. cbn [snd]. rewrite Hs. reflexivity.
Defined.

(** X9. Widening the window of [getActiveSessions] only adds sessions: the
    result for a smaller [minutesActive] is a sub-list of the result for
    a larger one at the same time, and every result is a sub-list of the
    table. *)
Theorem getActiveSessions_monotone (db : Db) (w1 w2 : option Z) (now : Z) :
  default 15 w1 <= default 15 w2 ->
  exists res1 res2,
    query (getActiveSessions w1 now) db = Ok res1 /\
    query (getActiveSessions w2 now) db = Ok res2 /\
    res1 `sublist_of` res2 /\
    res2 `sublist_of` sessions db.
Proof.
  intros Hw. eexists _, _. rewrite !query_getActiveSessions.
  split; [done|]. split; [done|]. split; [|apply sublist_filter].
  induction (sessions db) as [|r rows IH]; [done|].
  rewrite !filter_cons.
  destruct (decide (lastActive r > now - default 15 w1 * 60000)) as [H1|H1].
  - rewrite decide_True by lia. by apply sublist_skip.
  - destruct (decide (lastActive r > now - default 15 w2 * 60000));
      [by apply sublist_cons|done].
Qed.

Lemma getActiveSessions_monotone_witness :
  default 15 (Some 1) <= default 15 None /\
  exists res1 res2,
    query (getActiveSessions (Some 1) 100000) (scenario 1000 2000 "abc" "click")
    = Ok res1 /\
    query (getActiveSessions None 100000) (scenario 1000 2000 "abc" "click")
    = Ok res2 /\
    res1 = [] /\
    res2 = [scenario_session 1000 2000 "abc" "click"] /\
    res1 `sublist_of` res2.
Proof.
  assert (Hw : default 15 (Some 1) <= default 15 None) by (simpl; lia).
  split; [exact Hw|].
  destruct (getActiveSessions_monotone (scenario 1000 2000 "abc" "click")
              (Some 1) None 100000 Hw) as (res1 & res2 & Hq1 & Hq2 & Hsub & _).
  exists res1, res2. split; [exact Hq1|]. split; [exact Hq2|].
  assert (H1 : query (getActiveSessions (Some 1) 100000)
                 (scenario 1000 2000 "abc" "click") = Ok []) by reflexivity.
  assert (H2 : query (getActiveSessions None 100000)
                 (scenario 1000 2000 "abc" "click")
               = Ok [scenario_session 1000 2000 "abc" "click"]) by reflexivity.
  rewrite Hq1 in H1. rewrite Hq2 in H2.
  injection H1 as H1. injection H2 as H2.
  split; [exact H1|]. split; [exact H2|exact Hsub].
Defined.

End QueryComposed.

Section ActionLog.

Lemma exec_change (now : Z) (c : Call) (db : Db) :
  wf db -> change now db (exec now c db).
Proof.
  intros Hwf. destruct c as [anon|anon action rid meta|daysInactive]; cbn [exec].
  - destruct (mutation_trackSession_cases db anon now Hwf)
      as [(e & l1 & l2 & _ & _ & Hl & _ & ->)|[_ ->]]; cbn [snd].
    + by apply change_touch.
    + apply change_create.
  - destruct (mutation_trackUserAction_cases db anon action rid meta now Hwf)
      as [(e & l1 & l2 & _ & _ & Hl & _ & ->)|[_ ->]]; cbn [snd].
    + by apply change_action.
    + apply change_none.
  - rewrite mutation_cleanup by done. cbn [snd]. apply change_evict.
Qed.

Lemma elem_of_middle {A} (l1 l2 : list A) (x y : A) :
  y ∈ l1 ++ x :: l2 <-> y = x \/ y ∈ l1 ++ l2.
Proof. rewrite !elem_of_app, elem_of_cons. tauto. Qed.

Lemma StronglySorted_snoc (l : list Z) (x : Z) :
  StronglySorted Z.le l -> Forall (fun y => y <= x) l -> StronglySorted Z.le (l ++ [x]).
Proof.
  induction 1 as [|y l Hl IH Hy]; intros Hx; simpl.
  - repeat constructor.
  - apply Forall_cons in Hx as [Hyx Hx]. constructor; [by apply IH|].
    apply Forall_app. split; [done|]. by apply Forall_singleton.
Qed.

Lemma change_actions_in_order (clock now : Z) (db db' : Db) :
  change now db db' ->
  clock <= now ->
  timely clock db ->
  (forall d, d ∈ sessions db -> actions_in_order d) ->
  forall d, d ∈ sessions db' -> actions_in_order d.
Proof.
  intros [|l1 e l2 Hl|l1 e l2 a Hl Ha|anon|cutoff] Hclock Ht Ho d; cbn [sessions].
  - apply Ho.
  - rewrite elem_of_middle. intros [->|Hd].
    + assert (He : e ∈ sessions db) by (rewrite Hl, elem_of_middle; by left).
      destruct (Ho e He) as [Hs Hb]. destruct (Ht e He) as [_ Hle].
      split; [done|]. simpl. eapply Forall_impl; [exact Hb|]. simpl. intros; lia.
    + apply Ho. rewrite Hl, elem_of_middle. by right.
  - rewrite elem_of_middle. intros [->|Hd].
    + assert (He : e ∈ sessions db) by (rewrite Hl, elem_of_middle; by left).
      destruct (Ho e He) as [Hs Hb]. destruct (Ht e He) as [Hce Hle].
      split; simpl.
      * rewrite fmap_app. apply StronglySorted_snoc; [done|].
        apply Forall_fmap. eapply Forall_impl; [exact Hb|]. simpl. intros; lia.
      * apply Forall_app. split.
        -- eapply Forall_impl; [exact Hb|]. simpl. intros; lia.
        -- apply Forall_singleton. lia.
    + apply Ho. rewrite Hl, elem_of_middle. by right.
  - rewrite elem_of_app, list_elem_of_singleton. intros [Hd| ->]; [by apply Ho|].
    split; simpl; constructor.
  - intros [_ Hd]%list_elem_of_filter. by apply Ho.
Qed.

Lemma run_actions_in_order (history : list (Z * Call)) :
  forall (t0 : Z) (db : Db),
    chronological t0 history -> wf db -> timely t0 db ->
    (forall d, d ∈ sessions db -> actions_in_order d) ->
    forall d, d ∈ sessions (run history db) -> actions_in_order d.
Proof.
  induction history as [|[now c] history IH]; intros t0 db Hchr Hwf Ht Ho; [done|].
  destruct Hchr as [Hnow Hchr]. cbn [run].
  apply (IH now); [done|by apply exec_wf| |].
  - eapply transition_timely; [by apply exec_transition|done..].
  - eapply change_actions_in_order; [by apply exec_change|done..].
Qed.

(** X10. Along every history of mutations made at non-decreasing times
    from the empty store, the actions of every session are in
    non-decreasing order of [timestamp], and each [timestamp] lies between
    the session's [createdAt] and its [lastActive]. *)
Theorem action_timestamps_in_order (t0 : Z) (history : list (Z * Call)) (d : Doc) :
  chronological t0 history ->
  d ∈ sessions (run history empty_db) ->
  StronglySorted Z.le (timestamp <$> actions d) /\
  Forall (fun a => createdAt d <= timestamp a /\ timestamp a <= lastActive d)
    (actions d).
Proof.
  intros Hchr Hd.
  apply (run_actions_in_order history t0 empty_db Hchr wf_empty (timely_empty t0));
    [|done].
  by intros r ?%elem_of_nil.
Qed.

Lemma action_timestamps_in_order_witness :
  chronological 0
    [(1000, CallTrackSession "abc");
     (2000, CallTrackUserAction "abc" "click" None None);
     (2000, CallTrackUserAction "abc" "scroll" None None);
     (3000, CallTrackSession "abc")] /\
  StronglySorted Z.le [2000; 2000] /\
  Forall (fun a => 1000 <= timestamp a /\ timestamp a <= 3000)
    [entry "click" 2000 None None; entry "scroll" 2000 None None].
Proof.
  assert (Hchr : chronological 0
            [(1000, CallTrackSession "abc");
             (2000, CallTrackUserAction "abc" "click" None None);
             (2000, CallTrackUserAction "abc" "scroll" None None);
             (3000, CallTrackSession "abc")]) by (simpl; lia).
  split; [exact Hchr|].
  apply (action_timestamps_in_order 0 _
           {| _id := 0%nat; anonymousId := "abc"; createdAt := 1000;
              lastActive := 3000;
              actions := [entry "click" 2000 None None;
                          entry "scroll" 2000 None None] |} Hchr).
  vm_compute. left.
Defined.

End ActionLog.

Section AppendOnly.

Lemma grows_refl (db : Db) : grows db db.
Proof. split; [done|]. intros d Hd _. by exists d. Qed.

Lemma grows_trans (db1 db2 db3 : Db) : grows db1 db2 -> grows db2 db3 -> grows db1 db3.
Proof.
  intros [Hn12 H12] [Hn23 H23]. split; [lia|].
  intros d3 Hd3 Hlt.
  destruct (H23 d3 Hd3) as (d2 & Hd2 & Hid2 & Ha2 & Hp2); [lia|].
  destruct (H12 d2 Hd2) as (d1 & Hd1 & Hid1 & Ha1 & Hp1); [lia|].
  exists d1. repeat split; [done|congruence|congruence|by etrans].
Qed.

Lemma change_grows (now : Z) (db db' : Db) : change now db db' -> grows db db'.
Proof.
  intros [|l1 e l2 Hl|l1 e l2 a Hl Ha|anon|cutoff]; (split; [simpl; lia|]);
    cbn [sessions next_id]; intros d'.
  - intros Hd' _. by exists d'.
  - rewrite elem_of_middle. intros [->|Hd'] _.
    + exists e. rewrite Hl, elem_of_middle. by repeat split; [left|..].
    + exists d'. rewrite Hl, elem_of_middle. by repeat split; [right|..].
  - rewrite elem_of_middle. intros [->|Hd'] _.
    + exists e. rewrite Hl, elem_of_middle.
      repeat split; [by left|done..|]. by apply prefix_app_r.
    + exists d'. rewrite Hl, elem_of_middle. by repeat split; [right|..].
  - rewrite elem_of_app, list_elem_of_singleton. intros [Hd'| ->] Hlt.
    + by exists d'.
    + simpl in Hlt. lia.
  - intros [_ Hd']%list_elem_of_filter _. by exists d'.
Qed.

Lemma run_grows (history : list (Z * Call)) :
  forall db, wf db -> wf (run history db) /\ grows db (run history db).
Proof.
  induction history as [|[now c] history IH]; intros db Hwf.
  - split; [done|apply grows_refl].
  - cbn [run]. destruct (IH (exec now c db)) as [Hwf' Hg]; [by apply exec_wf|].
    split; [done|]. eapply grows_trans; [|exact Hg].
    apply (change_grows now). by apply exec_change.
Qed.

(** X11. Along every history of mutations from the empty store, whatever
    the times: a document id stays with one identifier, also across
    evictions, and the actions of a session only grow at the end, so what
    was recorded is never dropped, changed or reordered while the session
    lives. *)
Theorem actions_are_append_only (before after : list (Z * Call)) (d1 d2 : Doc) :
  d1 ∈ sessions (run before empty_db) ->
  d2 ∈ sessions (run (before ++ after) empty_db) ->
  _id d1 = _id d2 ->
  anonymousId d2 = anonymousId d1 /\
  actions d1 `prefix_of` actions d2.
Proof.
  intros Hd1 Hd2 Hid. rewrite run_app in Hd2.
  destruct (run_grows before empty_db wf_empty) as [Hwf1 _].
  destruct (run_grows after _ Hwf1) as [_ [_ Hg]].
  destruct (Hg d2 Hd2) as (d & Hd & Hid' & Ha & Hp).
  - destruct Hwf1 as [_ Hlt]. rewrite Forall_forall in Hlt.
    rewrite <- Hid. by apply Hlt.
  - assert (d = d1) as -> by (eapply same_id_same_row; [done..|congruence]).
    done.
Qed.

Lemma actions_are_append_only_witness :
  fresh_session 0%nat "abc" 1000
  ∈ sessions (run [(1000, CallTrackSession "abc")] empty_db) /\
  scenario_session 1000 2000 "abc" "click"
  ∈ sessions (run ([(1000, CallTrackSession "abc")] ++
                   [(2000, CallTrackUserAction "abc" "click" None None)]) empty_db) /\
  actions (fresh_session 0%nat "abc" 1000)
  `prefix_of` actions (scenario_session 1000 2000 "abc" "click").
Proof.
  assert (H1 : fresh_session 0%nat "abc" 1000
               ∈ sessions (run [(1000, CallTrackSession "abc")] empty_db))
    by (vm_compute; left).
  assert (H2 : scenario_session 1000 2000 "abc" "click"
               ∈ sessions (run ([(1000, CallTrackSession "abc")] ++
                                [(2000, CallTrackUserAction "abc" "click" None None)])
                             empty_db))
    by (vm_compute; left).
  split; [exact H1|]. split; [exact H2|].
  apply (actions_are_append_only _ _ _ _ H1 H2 eq_refl).
Defined.

(** X12. On a store reached by a history made at non-decreasing times,
    queried no earlier than the last call, [getActiveSessions] with a
    window of zero or fewer minutes returns no session at all. *)
Theorem getActiveSessions_empty_window
    (t0 : Z) (history : list (Z * Call)) (w now : Z) :
  chronological t0 history ->
  end_time t0 history <= now ->
  w <= 0 ->
  query (getActiveSessions (Some w) now) (run history empty_db) = Ok [].
Proof.
  intros Hchr Hend Hw. rewrite query_getActiveSessions. f_equal.
  destruct (run_invariants history t0 empty_db Hchr wf_empty (timely_empty t0))
    as (_ & Ht & _).
  apply elem_of_nil_inv. intros d [Hgt Hd]%list_elem_of_filter.
  destruct (Ht d Hd) as [_ Hle]. simpl in Hgt. nia.
Qed.

Lemma getActiveSessions_empty_window_witness :
  chronological 0 [(1000, CallTrackSession "abc")] /\
  end_time 0 [(1000, CallTrackSession "abc")] <= 1000 /\
  0 <= 0 /\
  query (getActiveSessions (Some 0) 1000) (run [(1000, CallTrackSession "abc")] empty_db)
  = Ok [].
Proof.
  assert (Hchr : chronological 0 [(1000, CallTrackSession "abc")]) by (simpl; lia).
  assert (Hend : end_time 0 [(1000, CallTrackSession "abc")] <= 1000) by (simpl; lia).
  split; [exact Hchr|]. split; [exact Hend|]. split; [lia|].
  apply (getActiveSessions_empty_window 0 _ 0 1000 Hchr Hend). lia.
Defined.

End AppendOnly.

(** * Further properties of the client hook *)

Section Hook.

Import Client.

Lemma effect_with_window (hb : option Z) (storageKey : option string)
    (uuidv4 : string) (p : Page) (ls : gmap string string) :
  window p = Some ls ->
  exists id ls',
    effect hb storageKey uuidv4 p
    = {| window := Some ls'; anonymousId_state := Some id;
         sent := sent p ++ [id];
         interval := Some (default 300000 hb, id) |} /\
    ls' !! default "anonymousUserId" storageKey = Some id /\
    (forall k, k <> default "anonymousUserId" storageKey -> ls' !! k = ls !! k).
Proof.
  intros Hw. unfold effect, or_else. rewrite Hw. cbn zeta.
  destruct (ls !! default "anonymousUserId" storageKey) as [v|] eqn:Hv.
  - destruct (truthy (Some v)) eqn:Ht; cbn [negb].
    + by exists v, ls.
    + eexists _, _. split; [done|]. split; [apply lookup_insert_eq|].
      intros k Hk. by apply lookup_insert_ne.
  - eexists _, _. split; [done|]. split; [apply lookup_insert_eq|].
    intros k Hk. by apply lookup_insert_ne.
Qed.

(** X13. When the effect runs in a browser, the identifier the hook
    returns is the one found under the storage key afterwards, the one
    sent in the immediate heartbeat and the one the timer will report;
    every other key of [localStorage] is left as it was. *)
Theorem effect_identifier_is_persisted (hb : option Z) (storageKey : option string)
    (uuidv4 : string) (p : Page) (ls : gmap string string) :
  window p = Some ls ->
  exists id ls',
    useSessionTracker hb storageKey uuidv4 p = Some id /\
    window (effect hb storageKey uuidv4 p) = Some ls' /\
    ls' !! default "anonymousUserId" storageKey = Some id /\
    (forall k, k <> default "anonymousUserId" storageKey -> ls' !! k = ls !! k) /\
    sent (effect hb storageKey uuidv4 p) = sent p ++ [id] /\
    interval (effect hb storageKey uuidv4 p) = Some (default 300000 hb, id).
Proof.
  intros Hw.
  destruct (effect_with_window hb storageKey uuidv4 p ls Hw)
    as (id & ls' & He & Hid & Hframe).
  exists id, ls'. unfold useSessionTracker. by rewrite He.
Qed.

Lemma effect_identifier_is_persisted_witness :
  window (initial_page (Some {["theme" := "dark"]})) = Some {["theme" := "dark"]} /\
  exists ls',
    window (effect None None "110ec58a-a0f2-4ac4-8393-c866d813b8d1"
              (initial_page (Some {["theme" := "dark"]}))) = Some ls' /\
    ls' !! "anonymousUserId" = Some "110ec58a-a0f2-4ac4-8393-c866d813b8d1" /\
    ls' !! "theme" = Some "dark".
Proof.
  split; [reflexivity|].
  destruct (effect_identifier_is_persisted None None
              "110ec58a-a0f2-4ac4-8393-c866d813b8d1"
              (initial_page (Some {["theme" := "dark"]}))
              {["theme" := "dark"]} eq_refl)
    as (id & ls' & Hu & Hw & Hid & Hframe & _).
  exists ls'. split; [exact Hw|].
  assert (Hu' : useSessionTracker None None "110ec58a-a0f2-4ac4-8393-c866d813b8d1"
                  (initial_page (Some {["theme" := "dark"]}))
                = Some "110ec58a-a0f2-4ac4-8393-c866d813b8d1").
  { unfold useSessionTracker, effect, or_else. cbn [window initial_page].
    cbn zeta. rewrite lookup_singleton_ne by done. reflexivity. }
  rewrite Hu' in Hu. injection Hu as <-.
  split; [exact Hid|]. rewrite Hframe by done. apply lookup_singleton_eq.
Defined.

Lemma ticks_with_timer (n : nat) (p : Page) (period : Z) (id : string) :
  interval p = Some (period, id) ->
  Nat.iter n tick p
  = {| window := window p; anonymousId_state := anonymousId_state p;
       sent := sent p ++ replicate n id; interval := interval p |}.
Proof.
  intros Hi. induction n as [|n IH]; simpl.
  - rewrite app_nil_r. by destruct p.
  - rewrite IH. unfold tick. cbn [interval sent window anonymousId_state].
    rewrite Hi. f_equal. rewrite <- app_assoc. f_equal.
    change (replicate n id ++ [id] = replicate (S n) id).
    by rewrite replicate_S_end.
Qed.

Lemma ticks_without_timer (n : nat) (p : Page) :
  interval p = None -> Nat.iter n tick p = p.
Proof.
  intros Hi. induction n as [|n IH]; simpl; [done|].
  rewrite IH. unfold tick. by rewrite Hi.
Qed.

(** X14. After the effect has run in a browser, every firing of the
    timer sends one more heartbeat, always with the identifier the hook
    returned, and changes nothing else; once the effect's clean-up
    ([clearInterval]) has run, or when there was no [window], firings of
    the timer send nothing. *)
Theorem heartbeat_timer (hb : option Z) (storageKey : option string)
    (uuidv4 : string) (p : Page) (n m : nat) :
  match window p with
  | Some ls =>
      exists id,
        useSessionTracker hb storageKey uuidv4 p = Some id /\
        sent (Nat.iter n tick (effect hb storageKey uuidv4 p))
        = sent p ++ replicate (S n) id /\
        window (Nat.iter n tick (effect hb storageKey uuidv4 p))
        = window (effect hb storageKey uuidv4 p) /\
        anonymousId_state (Nat.iter n tick (effect hb storageKey uuidv4 p)) = Some id /\
        sent (Nat.iter m tick
                (clearInterval (Nat.iter n tick (effect hb storageKey uuidv4 p))))
        = sent p ++ replicate (S n) id
  | None =>
      interval p = None ->
      sent (Nat.iter n tick (effect hb storageKey uuidv4 p)) = sent p
  end.
Proof.
  destruct (window p) as [ls|] eqn:Hw.
  - destruct (effect_with_window hb storageKey uuidv4 p ls Hw)
      as (id & ls' & He & _ & _).
    exists id. unfold useSessionTracker. rewrite He. cbn [anonymousId_state].
    split; [done|].
    rewrite (ticks_with_timer n _ (default 300000 hb) id) by done.
    cbn [sent window anonymousId_state interval].
    rewrite ticks_without_timer by done. cbn [clearInterval sent].
    rewrite <- app_assoc. by repeat split.
  - intros Hi. assert (He : effect hb storageKey uuidv4 p = p)
      by (unfold effect; by rewrite Hw).
    rewrite He. by rewrite ticks_without_timer.
Qed.

End Hook.

(** * The hook and the store together *)

Section EndToEnd.

Import Client.

Lemma heartbeat_timer_witness :
  sent (Nat.iter 3 tick
          (clearInterval
             (Nat.iter 2 tick
                (effect None None "110ec58a-a0f2-4ac4-8393-c866d813b8d1"
                   (initial_page (Some ∅))))))
  = replicate 3 "110ec58a-a0f2-4ac4-8393-c866d813b8d1".
Proof.
  pose proof (heartbeat_timer None None "110ec58a-a0f2-4ac4-8393-c866d813b8d1"
                (initial_page (Some ∅)) 2 3) as H.
  cbn [window initial_page] in H. destruct H as (id & Hid & _ & _ & _ & Hsent).
  assert (Hid' : useSessionTracker None None "110ec58a-a0f2-4ac4-8393-c866d813b8d1"
                   (initial_page (Some ∅))
                 = Some "110ec58a-a0f2-4ac4-8393-c866d813b8d1") by reflexivity.
  rewrite Hid' in Hid. injection Hid as <-. exact Hsent.
Defined.

Lemma deliver_replicate (times : list Z) (n : nat) (id : string) :
  deliver times (replicate n id) = heartbeats id (take n times).
Proof.
  unfold deliver, heartbeats. revert n.
  induction times as [|t times IH]; intros [|n]; simpl; [done..|].
  by rewrite IH.
Qed.

(** X15. The heartbeats a freshly mounted hook sends (the immediate one
    and those of the timer), delivered to the server at any times, all
    carry the identifier the hook returned and leave one session for it,
    created by the first of them when the identifier was unknown, with
    [lastActive] the time of the last one delivered; the sessions of
    other identifiers are not touched. *)
Theorem hook_heartbeats_reach_one_session
    (hb : option Z) (storageKey : option string) (uuidv4 : string)
    (ls : gmap string string) (n : nat) (t : Z) (times : list Z) (db : Db) :
  wf db ->
  exists id,
    useSessionTracker hb storageKey uuidv4 (initial_page (Some ls)) = Some id /\
    deliver (t :: times)
      (sent (Nat.iter n tick (effect hb storageKey uuidv4 (initial_page (Some ls)))))
    = heartbeats id (t :: take n times) /\
    others id (run (heartbeats id (t :: take n times)) db) = others id db /\
    session_of id (run (heartbeats id (t :: take n times)) db)
    = Some (touch (default t (last (take n times)))
              (default (fresh_session (next_id db) id t) (session_of id db))).
Proof.
  intros Hwf.
  destruct (effect_with_window hb storageKey uuidv4 (initial_page (Some ls)) ls eq_refl)
    as (id & ls' & He & _ & _).
  exists id. unfold useSessionTracker. rewrite He. cbn [anonymousId_state].
  split; [done|].
  rewrite (ticks_with_timer n _ (default 300000 hb) id) by done.
  cbn [sent initial_page app].
  change (id :: replicate n id) with (replicate (S n) id).
  rewrite deliver_replicate. cbn [take]. split; [done|].
  destruct (run_heartbeats db id t (take n times) Hwf) as [Hothers Hs].
  split; [done|]. by destruct (session_of id db); destruct Hs as [-> _].
Qed.

Lemma hook_heartbeats_reach_one_session_witness :
  wf empty_db /\
  run (deliver [1000; 301000; 601000]
         (sent (Nat.iter 2 tick
                  (effect None None "110ec58a-a0f2-4ac4-8393-c866d813b8d1"
                     (initial_page (Some ∅))))))
    empty_db
  = {| sessions :=
         [touch 601000
            (fresh_session 0%nat "110ec58a-a0f2-4ac4-8393-c866d813b8d1" 1000)];
       next_id := 1%nat |}.
Proof.
  assert (Hwf : wf empty_db) by by_computation.
  split; [exact Hwf|].
  destruct (hook_heartbeats_reach_one_session None None
              "110ec58a-a0f2-4ac4-8393-c866d813b8d1" ∅ 2 1000 [301000; 601000]
              empty_db Hwf) as (id & Hid & -> & _).
  assert (Hid' : useSessionTracker None None "110ec58a-a0f2-4ac4-8393-c866d813b8d1"
                   (initial_page (Some ∅))
                 = Some "110ec58a-a0f2-4ac4-8393-c866d813b8d1") by reflexivity.
  rewrite Hid' in Hid. injection Hid as <-.
  reflexivity.
Defined.

End EndToEnd.

Section Persistence.

Lemma session_of_replace_other (anon : string) (l1 l2 : list Doc) (e e' : Doc) (n n' : Id) :
  anonymousId e <> anon ->
  anonymousId e' = anonymousId e ->
  session_of anon {| sessions := l1 ++ e' :: l2; next_id := n' |}
  = session_of anon {| sessions := l1 ++ e :: l2; next_id := n |}.
Proof.
  intros He He'. unfold session_of. cbn [sessions].
  induction l1 as [|x l1 IH]; simpl.
  - rewrite !bool_decide_eq_false_2; [done..|congruence].
  - by rewrite IH.
Qed.

Lemma session_of_append_other (anon : string) (db : Db) (x : Doc) (n : Id) (s : Doc) :
  session_of anon db = Some s ->
  session_of anon {| sessions := sessions db ++ [x]; next_id := n |} = Some s.
Proof.
  unfold session_of. cbn [sessions].
  induction (sessions db) as [|y rows IH]; simpl; [done|].
  by destruct (bool_decide (anonymousId y = anon)).
Qed.

Lemma exec_keeps_session (now : Z) (c : Call) (db : Db) (anon : string) (s : Doc) :
  wf db ->
  ~ is_cleanup c ->
  session_of anon db = Some s ->
  exists s', session_of anon (exec now c db) = Some s' /\
             _id s' = _id s /\ createdAt s' = createdAt s.
Proof.
  intros Hwf Hc Hs. destruct c as [a|a action rid meta|d]; simpl in Hc; [..|done];
    cbn [exec].
  - destruct (mutation_trackSession_cases db a now Hwf)
      as [(e & l1 & l2 & He & Hanon & Hl & Hl1 & ->)|[Hnone ->]]; cbn [snd].
    + destruct (decide (a = anon)) as [->|Hne].
      * rewrite session_of_middle by done. rewrite He in Hs. injection Hs as ->.
        by exists (touch now s).
      * exists s. split; [|done].
        rewrite (session_of_replace_other anon l1 l2 e (touch now e)
                   (next_id db) (next_id db)) by (done || congruence).
        rewrite <- Hs. unfold session_of. cbn [sessions]. by rewrite Hl.
    + exists s. split; [|done]. by apply session_of_append_other.
  - destruct (mutation_trackUserAction_cases db a action rid meta now Hwf)
      as [(e & l1 & l2 & He & Hanon & Hl & Hl1 & ->)|[Hnone ->]]; cbn [snd].
    + destruct (decide (a = anon)) as [->|Hne].
      * rewrite session_of_middle by done. rewrite He in Hs. injection Hs as ->.
        by eexists.
      * exists s. split; [|done].
        rewrite (session_of_replace_other anon l1 l2 e
                   (record_action (entry action now rid meta) e)
                   (next_id db) (next_id db)) by (done || congruence).
        rewrite <- Hs. unfold session_of. cbn [sessions]. by rewrite Hl.
    + by exists s.
Qed.

Lemma run_keeps_session (history : list (Z * Call)) :
  forall (db : Db) (anon : string) (s : Doc),
    wf db ->
    Forall (fun tc => ~ is_cleanup tc.2) history ->
    session_of anon db = Some s ->
    wf (run history db) /\
    exists s', session_of anon (run history db) = Some s' /\
               _id s' = _id s /\ createdAt s' = createdAt s.
Proof.
  induction history as [|[now c] history IH]; intros db anon s Hwf Hh Hs.
  - split; [done|]. by exists s.
  - apply Forall_cons in Hh as [Hc Hh]. cbn [run].
    destruct (exec_keeps_session now c db anon s Hwf Hc Hs) as (s1 & Hs1 & Hid1 & Hc1).
    destruct (IH (exec now c db) anon s1) as (Hwf' & s' & Hs' & Hid' & Hc');
      [by apply exec_wf|done..|].
    split; [done|]. exists s'. repeat split; [done|congruence..].
Qed.

(** X16. Only a cleanup removes a session: after a heartbeat for an
    identifier, through any further calls of any clients that include no
    cleanup, the identifier keeps its session (same document id, same
    [createdAt]), so a [trackUserAction] for it succeeds and [trackSession]
    returns the same reference again. *)
Theorem session_persists_without_cleanup
    (db : Db) (anon : string) (t : Z) (history : list (Z * Call)) :
  wf db ->
  Forall (fun tc => ~ is_cleanup tc.2) history ->
  exists i s',
    (mutation (trackSession anon t) db).1 = Ok i /\
    session_of anon (run ((t, CallTrackSession anon) :: history) db) = Some s' /\
    _id s' = i /\
    (forall now,
       (mutation (trackSession anon now)
          (run ((t, CallTrackSession anon) :: history) db)).1 = Ok i) /\
    (forall action rid meta now,
       (mutation (trackUserAction anon action rid meta now)
          (run ((t, CallTrackSession anon) :: history) db)).1 = Ok tt).
Proof.
  intros Hwf Hh. cbn [run exec].
  pose proof (exec_wf t (CallTrackSession anon) db Hwf) as Hwf1. cbn [exec] in Hwf1.
  assert (Hfirst : exists i s1,
            (mutation (trackSession anon t) db).1 = Ok i /\
            session_of anon (mutation (trackSession anon t) db).2 = Some s1 /\
            _id s1 = i).
  { destruct (mutation_trackSession_cases db anon t Hwf)
      as [(e & l1 & l2 & He & Hanon & Hl & Hl1 & ->)|[Hnone ->]]; cbn [fst snd].
    - exists (_id e), (touch t e). by rewrite session_of_middle.
    - exists (next_id db), (fresh_session (next_id db) anon t).
      by rewrite session_of_append. }
  destruct Hfirst as (i & s1 & Hi & Hs1 & Hid1).
  destruct (run_keeps_session history _ anon s1 Hwf1 Hh Hs1)
    as (Hwf' & s' & Hs' & Hid' & _).
  exists i, s'. split; [done|]. split; [done|]. split; [congruence|]. split.
  - intros now.
    destruct (mutation_trackSession_cases _ anon now Hwf')
      as [(e & l1 & l2 & He & _ & _ & _ & ->)|[Hnone _]]; [|congruence].
    cbn [fst]. congruence.
  - intros action rid meta now.
    destruct (mutation_trackUserAction_cases _ anon action rid meta now Hwf')
      as [(e & l1 & l2 & _ & _ & _ & _ & ->)|[Hnone _]]; [done|congruence].
Qed.

Lemma session_persists_without_cleanup_witness :
  wf empty_db /\
  Forall (fun tc => ~ is_cleanup tc.2)
    [(2000, CallTrackSession "xyz");
     (3000, CallTrackUserAction "xyz" "scroll" None None)] /\
  (mutation (trackUserAction "abc" "click" None None 4000)
     (run [(1000, CallTrackSession "abc");
           (2000, CallTrackSession "xyz");
           (3000, CallTrackUserAction "xyz" "scroll" None None)] empty_db)).1
  = Ok tt.
Proof.
  assert (Hwf : wf empty_db) by by_computation.
  assert (Hh : Forall (fun tc => ~ is_cleanup tc.2)
                 [(2000, CallTrackSession "xyz");
                  (3000, CallTrackUserAction "xyz" "scroll" None None)])
    by (repeat constructor; simpl; tauto).
  split; [exact Hwf|]. split; [exact Hh|].
  destruct (session_persists_without_cleanup empty_db "abc" 1000 _ Hwf Hh)
    as (i & s' & _ & _ & _ & _ & Hact).
  apply Hact.
Defined.

End Persistence.

Section ExampleApp.

Import Client Example.

(** X17. In the example app the tracker element and the example
    component use different storage keys.  On a browser that holds
    neither key they end up with two identifiers, one under each key,
    and each sends its own heartbeat; with distinct generated identifiers
    the server then holds two sessions, and a click on the button is
    recorded in the session of the component's identifier, while the
    tracker's session has no action. *)
Theorem example_app_on_fresh_browser
    (uuid_t uuid_c : string) (ls : gmap string string) (t1 t2 t3 : Z) :
  ls !! "exampleAppAnonymousId" = None ->
  ls !! "anonymousUserId" = None ->
  uuid_t <> uuid_c ->
  anonymousId_state (mount uuid_t uuid_c ls).1 = Some uuid_t /\
  anonymousId_state (mount uuid_t uuid_c ls).2 = Some uuid_c /\
  window (mount uuid_t uuid_c ls).2
  = Some (<["anonymousUserId" := uuid_c]> (<["exampleAppAnonymousId" := uuid_t]> ls)) /\
  run (deliver [t1] (sent (mount uuid_t uuid_c ls).1) ++
       deliver [t2] (sent (mount uuid_t uuid_c ls).2) ++
       [(t3, handleClick uuid_c)]) empty_db
  = {| sessions :=
         [fresh_session 0%nat uuid_t t1;
          record_action
            (entry "example_button_click" t3 None
               (Some (VObject [("component", VString "ExampleComponent")])))
            (fresh_session 1%nat uuid_c t2)];
       next_id := 2%nat |}.
Proof.
  intros Ht Hc Hne.
  assert (Htracker : (mount uuid_t uuid_c ls).1
            = {| window := Some (<["exampleAppAnonymousId" := uuid_t]> ls);
                 anonymousId_state := Some uuid_t;
                 sent := [uuid_t];
                 interval := Some (300000, uuid_t) |}).
  { unfold mount, effect, or_else, default.
    cbn [fst window initial_page from_option id]. cbn zeta. unfold id.
    by rewrite Ht. }
  assert (Hcomponent : (mount uuid_t uuid_c ls).2
            = {| window := Some (<["anonymousUserId" := uuid_c]>
                                   (<["exampleAppAnonymousId" := uuid_t]> ls));
                 anonymousId_state := Some uuid_c;
                 sent := [uuid_c];
                 interval := Some (300000, uuid_c) |}).
  { pose proof Htracker as Ht'. unfold mount in Ht' |- *. cbn [fst snd] in Ht' |- *.
    rewrite Ht'.
    unfold effect, or_else, default.
    cbn [window initial_page from_option id]. cbn zeta. unfold id.
    rewrite lookup_insert_ne by done. by rewrite Hc. }
  rewrite Htracker, Hcomponent. cbn [anonymousId_state window sent].
  repeat (split; [done|]).
  unfold deliver, handleClick. cbn [zip zip_with fmap list_fmap app fst snd run exec].
  assert (Hwf0 : wf empty_db) by apply wf_empty.
  destruct (mutation_trackSession_cases empty_db uuid_t t1 Hwf0)
    as [(e & l1 & l2 & He & _)|[_ ->]]; [done|]. cbn [snd empty_db sessions next_id app].
  set (db1 := {| sessions := [fresh_session 0%nat uuid_t t1]; next_id := 1%nat |}).
  assert (Hwf1 : wf db1).
  { split; simpl; [apply NoDup_singleton|apply Forall_singleton; simpl; lia]. }
  assert (Hnone : session_of uuid_c db1 = None).
  { unfold session_of. simpl. by rewrite bool_decide_eq_false_2. }
  unfold mutation at 2. rewrite trackSession_new by done. cbn [snd db1 sessions next_id app].
  set (db2 := {| sessions := [fresh_session 0%nat uuid_t t1; fresh_session 1%nat uuid_c t2];
                 next_id := 2%nat |}).
  assert (Hwf2 : wf db2).
  { change db2 with {| sessions := sessions db1 ++ [fresh_session (next_id db1) uuid_c t2];
                       next_id := S (next_id db1) |}.
    by apply wf_append. }
  unfold mutation.
  rewrite (trackUserAction_found db2 uuid_c _ _ _ t3 (fresh_session 1%nat uuid_c t2)
             [fresh_session 0%nat uuid_t t1] []); [done|done| |done].
  unfold session_of. simpl.
  rewrite bool_decide_eq_false_2 by done. by rewrite bool_decide_eq_true_2.
Qed.

Lemma example_app_on_fresh_browser_witness :
  (∅ : gmap string string) !! "exampleAppAnonymousId" = None /\
  (∅ : gmap string string) !! "anonymousUserId" = None /\
  "110ec58a-a0f2-4ac4-8393-c866d813b8d1" <> "7c9e6679-7425-40de-944b-e07fc1f90ae7" /\
  anonymousId_state
    (mount "110ec58a-a0f2-4ac4-8393-c866d813b8d1"
       "7c9e6679-7425-40de-944b-e07fc1f90ae7" ∅).2
  = Some "7c9e6679-7425-40de-944b-e07fc1f90ae7".
Proof.
  split; [apply lookup_empty|]. split; [apply lookup_empty|].
  split; [discriminate|].
  apply (example_app_on_fresh_browser "110ec58a-a0f2-4ac4-8393-c866d813b8d1"
           "7c9e6679-7425-40de-944b-e07fc1f90ae7" ∅ 1000 1001 2000);
    [apply lookup_empty | apply lookup_empty | discriminate].
Defined.

End ExampleApp.
